(** * feishu-bot: customer intake bot (feishu_bot.py, main.py)

    A shallow embedding of the conversational intake bot: Python [str]
    values are lists of Unicode code points, dictionaries are [gmap]s,
    and code that talks to Redis or to the Feishu API runs in a small
    state-and-exception monad over a [World] that holds the Redis
    client and the trace of outbound calls. *)

From Stdlib Require Import ZArith Lia List Bool String Ascii ssreflect.
From stdpp Require Import base option list gmap fin_maps.

Set Default Proof Using "Type".

(** ** Python strings *)

(** A Python [str] is a sequence of Unicode code points. *)
Abbreviation pystr := (list Z).

(** ASCII literal of the source as a [str]. *)
Definition py (s : string) : pystr :=
  List.map (fun a => Z.of_N (N_of_ascii a)) (list_ascii_of_string s).

(** Decoder of the UTF-8 bytes of a literal of this file into code
    points, so that the constants below read like the source. *)
Fixpoint utf8_decode (fuel : nat) (bs : list Z) : pystr :=
  match fuel with
  | O => []
  | S fuel' =>
    match bs with
    | [] => []
    | b0 :: r0 =>
      if (b0 <? 128)%Z then b0 :: utf8_decode fuel' r0
      else if (b0 <? 224)%Z then
        match r0 with
        | b1 :: r1 =>
          ((b0 - 192) * 64 + (b1 - 128))%Z :: utf8_decode fuel' r1
        | _ => []
        end
      else if (b0 <? 240)%Z then
        match r0 with
        | b1 :: b2 :: r2 =>
          ((b0 - 224) * 4096 + (b1 - 128) * 64 + (b2 - 128))%Z
            :: utf8_decode fuel' r2
        | _ => []
        end
      else
        match r0 with
        | b1 :: b2 :: b3 :: r3 =>
          ((b0 - 240) * 262144 + (b1 - 128) * 4096
             + (b2 - 128) * 64 + (b3 - 128))%Z :: utf8_decode fuel' r3
        | _ => []
        end
    end
  end.

Definition u (s : string) : pystr :=
  let bs := py s in utf8_decode (length bs) bs.

(** [str.isspace] on one code point; both [\s] of [re] and
    [str.strip] use it. *)
Definition is_space (c : Z) : bool :=
  ((9 <=? c) && (c <=? 13) || (28 <=? c) && (c <=? 32)
   || (c =? 133) || (c =? 160) || (c =? 5760)
   || (8192 <=? c) && (c <=? 8202)
   || (c =? 8232) || (c =? 8233) || (c =? 8239) || (c =? 8287)
   || (c =? 12288))%Z.

Definition newline : Z := 10%Z.

Fixpoint drop_while (p : Z -> bool) (s : pystr) : pystr :=
  match s with
  | [] => []
  | c :: s' => if p c then drop_while p s' else s
  end.

(** [s.strip()] *)
Definition lstrip (s : pystr) : pystr := drop_while is_space s.
Definition rstrip (s : pystr) : pystr := rev (drop_while is_space (rev s)).
Definition strip (s : pystr) : pystr := rstrip (lstrip s).

(** [s.startswith(p)], returning the rest. *)
Fixpoint strip_prefix (p s : pystr) : option pystr :=
  match p with
  | [] => Some s
  | c :: p' =>
    match s with
    | [] => None
    | d :: s' => if (c =? d)%Z then strip_prefix p' s' else None
    end
  end.

Definition startswith (p s : pystr) : bool :=
  match strip_prefix p s with Some _ => true | None => false end.

(** [sub in s] *)
Fixpoint contains (sub s : pystr) : bool :=
  startswith sub s ||
  match s with
  | [] => false
  | _ :: s' => contains sub s'
  end.

(** Truth value of a [str] and of an [Optional[str]]. *)
Definition truthy (s : pystr) : bool :=
  match s with [] => false | _ => true end.

Definition truthy_opt (o : option pystr) : bool :=
  match o with Some s => truthy s | None => false end.

(** [f"{x}"] of an [Optional[str]]. *)
Definition fmt_opt (o : option pystr) : pystr :=
  match o with Some s => s | None => py "None" end.

(** ** Regular expressions of [re], as far as the source uses them *)

Inductive atom : Type :=
  | AChar (c : Z)            (* a literal character *)
  | ASet (cs : list Z)       (* [...] *)
  | ASpace                   (* \s *)
  | ADot.                    (* . : anything but a newline *)

Inductive regex : Type :=
  | REps
  | RAtom (a : atom)
  | RSeq (r1 r2 : regex)
  | RStar (r : regex)        (* greedy r* *)
  | RGroup (r : regex).      (* ( r ), capture group 1 *)

Definition RPlus (r : regex) : regex := RSeq r (RStar r).

Definition accepts (a : atom) (c : Z) : bool :=
  match a with
  | AChar d => (d =? c)%Z
  | ASet cs => existsb (Z.eqb c) cs
  | ASpace => is_space c
  | ADot => negb (c =? newline)%Z
  end.

(** A match object: what [group(1)] returns. *)
Definition match_obj := option pystr.

(** Continuation of a backtracking matcher: the rest of the input and
    the capture so far. *)
Definition kont := pystr -> option pystr -> option match_obj.

(** Greedy repetition: try one more iteration (which has to consume
    input), and fall back to the continuation when that fails. *)
Fixpoint star_loop (m : pystr -> option pystr -> kont -> option match_obj)
    (k : kont) (n : nat) (s : pystr) (g : option pystr) : option match_obj :=
  match n with
  | O => k s g
  | S n' =>
    match m s g (fun s' g' =>
                   if (length s' <? length s)%nat
                   then star_loop m k n' s' g' else None) with
    | Some res => Some res
    | None => k s g
    end
  end.

Fixpoint rmatch (r : regex) (s : pystr) (g : option pystr) (k : kont)
    : option match_obj :=
  match r with
  | REps => k s g
  | RAtom a =>
    match s with
    | c :: s' => if accepts a c then k s' g else None
    | [] => None
    end
  | RSeq r1 r2 => rmatch r1 s g (fun s' g' => rmatch r2 s' g' k)
  | RStar r1 => star_loop (rmatch r1) k (length s) s g
  | RGroup r1 =>
    rmatch r1 s g (fun s' _ => k s' (Some (take (length s - length s') s)))
  end.

(** [re.match(r, s)]: a match anchored at the start of [s]. *)
Definition re_match (r : regex) (s : pystr) : option match_obj :=
  rmatch r s None (fun _ g => Some g).

(** [re.search(r, s)]: the leftmost position with a match. *)
Fixpoint re_search (r : regex) (s : pystr) : option match_obj :=
  match re_match r s with
  | Some m => Some m
  | None =>
    match s with
    | [] => None
    | _ :: s' => re_search r s'
    end
  end.

Definition rcat (rs : list regex) : regex := foldr RSeq REps rs.

Definition lit (l : pystr) : list regex := List.map (fun c => RAtom (AChar c)) l.

(** ** Constants of the source *)

Definition lbl_channel : pystr := Eval vm_compute in u "渠道".
Definition lbl_source : pystr := Eval vm_compute in u "来源".
Definition lbl_phone : pystr := Eval vm_compute in u "电话".
Definition lbl_wechat : pystr := Eval vm_compute in u "微信".
Definition lbl_entry_date : pystr := Eval vm_compute in u "录入日期".
Definition lbl_customer_id : pystr := Eval vm_compute in u "客户ID".

(** The two colons of [[:：]]. *)
Definition colons : list Z := Eval vm_compute in u ":：".

(** [r"<label>[:：]\s*(.+)"] *)
Definition label_pattern (lbl : pystr) : regex :=
  rcat (lit lbl ++ [RAtom (ASet colons); RStar (RAtom ASpace);
                    RGroup (RPlus (RAtom ADot))]).

Definition patterns : list (pystr * regex) :=
  [ (lbl_channel, label_pattern lbl_channel);
    (lbl_source, label_pattern lbl_source);
    (lbl_phone, label_pattern lbl_phone);
    (lbl_wechat, label_pattern lbl_wechat) ].

(** ** Exceptions *)

Inductive exn : Type :=
  | SdkError                       (* raised inside a call of the SDK *)
  | HTTPError                      (* raised by [requests] *)
  | AttributeError
  | TypeError
  | JSONDecodeError
  | TableListFailed (msg : pystr)  (* Exception(f"获取表格列表失败: {response.msg}") *)
  | TableNotFound (name : pystr)   (* Exception(f"未找到目标表: {TARGET_TABLE_NAME}") *)
  | WikiNodeFailed (msg : pystr)   (* Exception(f"failed to get wiki node info: ...") *)
  | WikiNodeMissing                (* Exception("未获取到节点信息") *)
  | ListTablesFailed (msg : pystr) (* Exception(f"failed to list bitable tables: ...") *)
  | TableIdUnresolved.             (* Exception("无法从BASE_URL解析出table_id，...") *)

Inductive result (A : Type) : Type :=
  | Ok (a : A)
  | Raise (e : exn).
Arguments Ok {A} a.
Arguments Raise {A} e.

(** [parse_customer_info(text)].  [match.group(1)] is [None] when the
    group took no part in the match, and [None.strip()] raises. *)
Fixpoint parse_fields (ps : list (pystr * regex)) (text : pystr)
    (acc : gmap pystr pystr) : result (gmap pystr pystr) :=
  match ps with
  | [] => Ok acc
  | (field, pattern) :: ps' =>
    match re_search pattern text with
    | Some (Some g) => parse_fields ps' text (<[field := strip g]> acc)
    | Some None => Raise AttributeError
    | None => parse_fields ps' text acc
    end
  end.

Definition parse_customer_info (text : pystr) : result (gmap pystr pystr) :=
  parse_fields patterns text ∅.

(** ** Data exchanged with the Feishu API and with Redis *)

(** A session, the dictionary that [set_user_state] stores. *)
Record Session : Type := {
  chat_id : pystr;
  step : pystr;
  created_at : pystr }.

Record AppTable : Type := { table_name : pystr; table_id : pystr }.

Record SelectOption : Type := { opt_name : pystr; opt_id : pystr }.

(** [field.property] of a field of the SDK: absent, a text that
    [json.loads] rejects, or a dictionary with or without ["options"]. *)
Inductive property_payload : Type :=
  | PropNone
  | PropInvalid
  | PropDict (opts : option (list SelectOption)).

Record FieldItem : Type := {
  item_field_id : pystr;
  item_field_name : pystr;
  item_type : Z;
  item_property : property_payload }.

(** The dictionaries built by [get_table_fields]; [property] holds the
    ["options"] entry of the property dictionary, if any. *)
Record FieldInfo : Type := {
  field_id : pystr;
  field_name : pystr;
  type : Z;
  property : option (list SelectOption) }.

Record RecordItem : Type := { record_id : pystr }.

Record Condition : Type := {
  cond_field_name : pystr;
  cond_operator : pystr;
  cond_value : list pystr }.

Record Filter : Type := {
  conjunction : pystr;
  conditions : list Condition }.

(** A response of the SDK. *)
Record Response (D : Type) : Type := {
  success : bool;
  msg : pystr;
  data : option D }.
Arguments success {D} r.
Arguments msg {D} r.
Arguments data {D} r.

(** What a call of the SDK does: raise, or return a response. *)
Inductive api_result (D : Type) : Type :=
  | ApiRaise
  | ApiResp (r : Response D).
Arguments ApiRaise {D}.
Arguments ApiResp {D} r.

(** What a [requests.get] followed by [raise_for_status] and
    [response.json()] does in main.py. *)
Inductive http_result (D : Type) : Type :=
  | HttpRaise
  | HttpJson (code : Z) (hmsg : pystr) (hdata : option D).
Arguments HttpRaise {D}.
Arguments HttpJson {D} code hmsg hdata.

Record NodeInfo : Type := { obj_token : option pystr }.

(** A URL as [urlparse] and [parse_qs] present it; [parse_qs] maps a
    parameter to the non-empty list of its values. *)
Record Url : Type := {
  url_path : pystr;
  url_query : gmap pystr (pystr * list pystr) }.

Inductive level : Type := INFO | WARNING | ERROR.

(** The log lines of the source, by the site that writes them. *)
Inductive log_msg : Type :=
  | LRedisConnected                  (* "Redis连接成功" *)
  | LRedisFailed                     (* "Redis连接失败: ...，将使用内存缓存" *)
  | LListTablesFailed (m : pystr)    (* "获取表格列表失败: ..." *)
  | LGetTableIdFailed (e : exn)      (* "获取目标表ID失败: ..." *)
  | LListFieldsFailed (m : pystr)    (* "获取字段列表失败: ..." *)
  | LGetFieldsFailed (e : exn)       (* "获取表格字段失败: ..." *)
  | LSearchFailed (m : pystr)        (* "查询记录失败: ..." *)
  | LDuplicateCheckFailed (e : exn)  (* "查重失败: ..." *)
  | LCreateFailed (m : pystr)        (* "创建记录失败: ..." *)
  | LCreated (rid : pystr)           (* "记录创建成功: ..." *)
  | LCreateRecordFailed (e : exn)    (* "创建客户记录失败: ..." *)
  | LSendFailed (m : pystr)          (* "发送消息失败: ..." *)
  | LSendException (e : exn)         (* "发送消息异常: ..." *)
  | LWebhookReceived                 (* "收到Webhook事件: ..." *)
  | LWebhookException (e : exn)      (* "处理Webhook异常: ..." *)
  | LMessageReceived                 (* "收到消息 - 用户: ..." *)
  | LMessageException (e : exn).     (* "处理消息事件异常: ..." *)

(** Outbound effects, in the order in which they happen. *)
Inductive event : Type :=
  | ESend (chat content msg_type : pystr)
  | EListTables (app_token : pystr)
  | EListFields (app_token tid : pystr)
  | ESearch (app_token tid : pystr) (field_names : list pystr) (f : Filter)
  | ECreate (app_token tid : pystr) (fields : gmap pystr (option pystr))
  | EHttpWikiNode (token node_token : pystr)
  | EHttpListTables (token app_token : pystr)
  | ELog (l : level) (m : log_msg).

(** Redis: key to value and time-to-live in seconds. *)
Abbreviation store := (gmap pystr (pystr * Z)).

Record World : Type := {
  redis_client : option store;   (* [None]: the module's [redis_client = None] *)
  trace : list event }.

(** Configuration, clock and the remote services. *)
Record Env : Type := {
  BASE_URL : Url;
  TARGET_TABLE_NAME : pystr;
  VERIFICATION_TOKEN : pystr;
  now_isoformat : pystr;                        (* datetime.now().isoformat() *)
  today : pystr;                                (* datetime.now().strftime("%Y-%m-%d") *)
  json_dumps : Session -> pystr;
  json_loads : pystr -> option Session;         (* [None]: raises *)
  api_send : pystr -> pystr -> pystr -> api_result unit;
  api_list_tables : pystr -> api_result (option (list AppTable));
  api_list_fields : pystr -> pystr -> api_result (option (list FieldItem));
  api_search : pystr -> pystr -> list pystr -> Filter
               -> api_result (option (list RecordItem));
  api_create : pystr -> pystr -> gmap pystr (option pystr)
               -> api_result (option RecordItem);
  http_wiki_node : pystr -> pystr -> http_result NodeInfo;
  http_list_tables : pystr -> pystr -> http_result (list AppTable) }.

(** ** The monad of effectful code *)

Definition M (A : Type) : Type := World -> result A * World.

Definition ret {A} (a : A) : M A := fun w => (Ok a, w).

Definition bind {A B} (m : M A) (f : A -> M B) : M B :=
  fun w => match m w with
           | (Ok a, w') => f a w'
           | (Raise e, w') => (Raise e, w')
           end.

Definition raise {A} (e : exn) : M A := fun w => (Raise e, w).

(** [try: m except Exception as e: h e] *)
Definition try_except {A} (m : M A) (h : exn -> M A) : M A :=
  fun w => match m w with
           | (Ok a, w') => (Ok a, w')
           | (Raise e, w') => h e w'
           end.

Notation "x <~ y ; z" := (bind y (fun x : _ => z))
  (at level 20, y at level 100, z at level 200, only parsing).
Notation "y ;~ z" := (bind y (fun _ : unit => z))
  (at level 100, z at level 200, right associativity, only parsing).

Definition lift {A} (r : result A) : M A := fun w => (r, w).

Definition add_events (evs : list event) (w : World) : World :=
  {| redis_client := redis_client w; trace := trace w ++ evs |}.

Definition emit (e : event) : M unit :=
  fun w => (Ok tt, add_events [e] w).

Definition log (l : level) (m : log_msg) : M unit := emit (ELog l m).

Definition get_redis_client : M (option store) :=
  fun w => (Ok (redis_client w), w).

Definition set_store (st : store) : M unit :=
  fun w => (Ok tt, {| redis_client := Some st; trace := trace w |}).

(** [redis_client.get(key)] with [decode_responses=True]. *)
Definition redis_get (st : store) (key : pystr) : option pystr :=
  fst <$> st !! key.

(** [redis_client.setex(key, ttl, value)] *)
Definition redis_setex (st : store) (key : pystr) (ttl : Z) (value : pystr) : M unit :=
  set_store (<[key := (value, ttl)]> st).

(** [redis_client.delete(key)] *)
Definition redis_delete (st : store) (key : pystr) : M unit :=
  set_store (delete key st).

(** A call of the SDK: the request goes out, then the call raises or
    returns its response. *)
Definition sdk_call {D} (e : event) (r : api_result D) : M (Response D) :=
  emit e ;~
  match r with
  | ApiRaise => raise SdkError
  | ApiResp resp => ret resp
  end.

(** [response.data], as the target of an attribute access. *)
Definition data_of {D} (resp : Response D) : M D :=
  match data resp with
  | Some d => ret d
  | None => raise AttributeError
  end.

(** [for x in items], for [items] that may be [None]. *)
Definition iter_of {T} (items : option (list T)) : M (list T) :=
  match items with
  | Some l => ret l
  | None => raise TypeError
  end.

(** ** feishu_bot.py *)

Definition slash : Z := 47%Z.

(** [s.split(sep)] for a one-character separator. *)
Fixpoint split_on (sep : Z) (s : pystr) : list pystr :=
  match s with
  | [] => [[]]
  | c :: s' =>
    if (c =? sep)%Z then [] :: split_on sep s'
    else match split_on sep s' with
         | h :: t => (c :: h) :: t
         | [] => [[c]]
         end
  end.

(** [s.strip(c)] for a one-character set. *)
Definition strip_char (c : Z) (s : pystr) : pystr :=
  rev (drop_while (Z.eqb c) (rev (drop_while (Z.eqb c) s))).

(** [query_params.get(k, [None])[0]] *)
Definition query_first (q : gmap pystr (pystr * list pystr)) (k : pystr)
    : option pystr :=
  fst <$> q !! k.

Record BaseParams : Type := {
  bp_app_token : pystr;
  bp_table_id : option pystr;
  bp_view_id : option pystr }.

Definition template : pystr := Eval vm_compute in u
"请按以下模板提供信息：
渠道：
来源：
电话：
微信：
（可直接发送图片，将自动作为初次聊天记录附件）".

Definition msg_need_contact : pystr :=
  Eval vm_compute in u "电话和微信至少需要填写一个".
Definition msg_success : pystr := Eval vm_compute in u "客户信息已成功录入！".
Definition msg_failure : pystr := Eval vm_compute in u "录入失败，请稍后重试".
Definition msg_bad_format : pystr :=
  Eval vm_compute in u "格式不正确，请按模板提供信息".

(** [f"数据与客户ID：{duplicate_id}重复"] *)
Definition dup_prefix : pystr := Eval vm_compute in u "数据与客户ID：".
Definition dup_suffix : pystr := Eval vm_compute in u "重复".
Definition msg_duplicate (duplicate_id : option pystr) : pystr :=
  dup_prefix ++ fmt_opt duplicate_id ++ dup_suffix.

Definition waiting_info : pystr := Eval vm_compute in py "waiting_info".
Definition cache_key : pystr := Eval vm_compute in py "target_table_id".
Definition default_ttl : Z := 300%Z.

(** The body of a response built by [jsonify]. *)
Inductive json_body : Type :=
  | JChallenge (challenge : option pystr)  (* {"challenge": ...} *)
  | JError (text : pystr)                  (* {"error": "..."} *)
  | JErrorOf (e : exn)                     (* {"error": str(e)} *)
  | JMsg (text : pystr).                   (* {"msg": "..."} *)

Definition HttpResponse : Type := json_body * Z.

(** The message event as the handler reads it from the envelope:
    [message.chat_id], [message.chat_type], the ["text"] of the decoded
    [message.content], and [sender.sender_id.user_id]. *)
Record MessageEvent : Type := {
  ev_chat_id : pystr;
  ev_chat_type : pystr;
  ev_text : pystr;
  ev_user_id : option pystr }.

Record WebhookEvent : Type := {
  we_type : option pystr;
  we_message : MessageEvent }.

(** The JSON body of a request to /webhook. *)
Record Envelope : Type := {
  env_type : option pystr;
  env_challenge : option pystr;
  env_event : option WebhookEvent }.

Record Request : Type := {
  req_json : Envelope;
  req_token : option pystr }.  (* headers.get('X-Lark-Verification-Token') *)

(** Module initialisation: [redis.Redis(...).ping()] reaches a server
    with some content, or raises. *)
Definition connect_redis (server : option store) : World :=
  match server with
  | Some st => {| redis_client := Some st; trace := [ELog INFO LRedisConnected] |}
  | None => {| redis_client := None; trace := [ELog WARNING LRedisFailed] |}
  end.

Fixpoint find_option (options : list SelectOption) (option_text : option pystr)
    : option pystr :=
  match options with
  | [] => None
  | o :: os =>
    if bool_decide (Some (opt_name o) = option_text) then Some (opt_id o)
    else find_option os option_text
  end.

Fixpoint get_single_select_option_id (fields : list FieldInfo)
    (fname : pystr) (option_text : option pystr) : option pystr :=
  match fields with
  | [] => None
  | f :: fs =>
    if bool_decide (field_name f = fname) && (type f =? 3)%Z then
      match find_option (default [] (property f)) option_text with
      | Some i => Some i
      | None => get_single_select_option_id fs fname option_text
      end
    else get_single_select_option_id fs fname option_text
  end.

Definition enumerated : list pystr := [lbl_channel; lbl_source].

(** The cache lookup at the head of [get_target_table_id]: the cached
    id, when there is a Redis client and it holds a non-empty one. *)
Definition cached_table_id (rc : option store) : option pystr :=
  match rc with
  | Some st =>
    match redis_get st cache_key with
    | Some cached_id => if truthy cached_id then Some cached_id else None
    | None => None
    end
  | None => None
  end.

Section FeishuBot.

Variable env : Env.

Definition user_state_key (user_id : option pystr) : pystr :=
  py "user_state:" ++ fmt_opt user_id.

Definition get_user_state (user_id : option pystr) : M (option Session) :=
  rc <~ get_redis_client;
  match rc with
  | Some st =>
    match redis_get st (user_state_key user_id) with
    | Some state_json =>
      if truthy state_json then
        match json_loads env state_json with
        | Some s => ret (Some s)
        | None => raise JSONDecodeError
        end
      else ret None
    | None => ret None
    end
  | None => ret None
  end.

Definition set_user_state (user_id : option pystr) (state : Session) (ttl : Z)
    : M unit :=
  rc <~ get_redis_client;
  match rc with
  | Some st => redis_setex st (user_state_key user_id) ttl (json_dumps env state)
  | None => ret tt
  end.

Definition delete_user_state (user_id : option pystr) : M unit :=
  rc <~ get_redis_client;
  match rc with
  | Some st => redis_delete st (user_state_key user_id)
  | None => ret tt
  end.

Definition parse_base_url : BaseParams :=
  let path_parts := split_on slash (strip_char slash (url_path (BASE_URL env))) in
  {| bp_app_token := match path_parts with [] => [] | _ => List.last path_parts [] end;
     bp_table_id := query_first (url_query (BASE_URL env)) (py "table");
     bp_view_id := query_first (url_query (BASE_URL env)) (py "view") |}.

(** The loop of [get_target_table_id] over the listed tables. *)
Fixpoint find_target_table (tables : list AppTable) : M pystr :=
  match tables with
  | [] => raise (TableNotFound (TARGET_TABLE_NAME env))
  | table :: rest =>
    if bool_decide (table_name table = TARGET_TABLE_NAME env) then
      rc <~ get_redis_client;
      match rc with
      | Some st => redis_setex st cache_key 3600 (table_id table)
      | None => ret tt
      end ;~
      ret (table_id table)
    else find_target_table rest
  end.

Definition get_target_table_id : M pystr :=
  rc <~ get_redis_client;
  match cached_table_id rc with
  | Some cached_id => ret cached_id
  | None =>
    try_except
      (let app_token := bp_app_token parse_base_url in
       response <~ sdk_call (EListTables app_token) (api_list_tables env app_token);
       if negb (success response) then
         log ERROR (LListTablesFailed (msg response)) ;~
         raise (TableListFailed (msg response))
       else
         d <~ data_of response;
         tables <~ iter_of d;
         find_target_table tables)
      (fun e => log ERROR (LGetTableIdFailed e) ;~ raise e)
  end.

Definition field_info_of (field : FieldItem) : M FieldInfo :=
  match item_property field with
  | PropNone =>
    ret {| field_id := item_field_id field; field_name := item_field_name field;
           type := item_type field; property := None |}
  | PropInvalid => raise JSONDecodeError
  | PropDict opts =>
    ret {| field_id := item_field_id field; field_name := item_field_name field;
           type := item_type field; property := opts |}
  end.

Fixpoint collect_fields (items : list FieldItem) (fields : list FieldInfo)
    : M (list FieldInfo) :=
  match items with
  | [] => ret fields
  | field :: rest =>
    field_info <~ field_info_of field;
    collect_fields rest (fields ++ [field_info])
  end.

Definition get_table_fields (app_token tid : pystr) : M (list FieldInfo) :=
  try_except
    (response <~ sdk_call (EListFields app_token tid)
                          (api_list_fields env app_token tid);
     if negb (success response) then
       log ERROR (LListFieldsFailed (msg response)) ;~
       ret []
     else
       d <~ data_of response;
       items <~ iter_of d;
       collect_fields items [])
    (fun e => log ERROR (LGetFieldsFailed e) ;~ ret []).

Definition is_condition (fname value : pystr) : Condition :=
  {| cond_field_name := fname; cond_operator := py "is"; cond_value := [value] |}.

Definition check_duplicate_record (app_token tid : pystr)
    (phone wechat : option pystr) : M (bool * option pystr) :=
  try_except
    (let conditions := [] in
     let conditions :=
       match phone with
       | Some p => if truthy p then conditions ++ [is_condition lbl_phone p]
                   else conditions
       | None => conditions
       end in
     let conditions :=
       match wechat with
       | Some w => if truthy w then conditions ++ [is_condition lbl_wechat w]
                   else conditions
       | None => conditions
       end in
     match conditions with
     | [] => ret (false, None)
     | _ =>
       let filter_condition :=
         {| conjunction := py "or"; conditions := conditions |} in
       response <~ sdk_call
         (ESearch app_token tid [lbl_customer_id] filter_condition)
         (api_search env app_token tid [lbl_customer_id] filter_condition);
       if negb (success response) then
         log ERROR (LSearchFailed (msg response)) ;~
         ret (false, None)
       else
         d <~ data_of response;
         match d with
         | Some (record :: _) => ret (true, Some (record_id record))
         | _ => ret (false, None)
         end
     end)
    (fun e => log ERROR (LDuplicateCheckFailed e) ;~ ret (false, None)).

(** One round of the loop over ["渠道"] and ["来源"]. *)
Definition fill_enumerated (table_fields : list FieldInfo)
    (fields_data : gmap pystr (option pystr))
    (fields : gmap pystr (option pystr)) (fname : pystr)
    : gmap pystr (option pystr) :=
  match fields_data !! fname with
  | Some option_text =>
    let option_id := get_single_select_option_id table_fields fname option_text in
    if truthy_opt option_id then <[fname := option_id]> fields
    else <[fname := option_text]> fields
  | None => fields
  end.

(** One round of the loop over [fields_data.items()]. *)
Definition copy_other (fname : pystr) (value : option pystr)
    (fields : gmap pystr (option pystr)) : gmap pystr (option pystr) :=
  if bool_decide (fname ∉ enumerated) && truthy_opt value
  then <[fname := value]> fields else fields.

(** The field mapping that [create_customer_record] sends. *)
Definition build_fields (table_fields : list FieldInfo)
    (fields_data : gmap pystr (option pystr)) : gmap pystr (option pystr) :=
  let fields := foldl (fill_enumerated table_fields fields_data) ∅ enumerated in
  let fields := map_fold copy_other fields fields_data in
  match fields !! lbl_entry_date with
  | None => <[lbl_entry_date := Some (today env)]> fields
  | Some _ => fields
  end.

Definition create_customer_record (app_token tid : pystr)
    (fields_data : gmap pystr (option pystr)) : M bool :=
  try_except
    (table_fields <~ get_table_fields app_token tid;
     let fields := build_fields table_fields fields_data in
     response <~ sdk_call (ECreate app_token tid fields)
                          (api_create env app_token tid fields);
     if negb (success response) then
       log ERROR (LCreateFailed (msg response)) ;~
       ret false
     else
       d <~ data_of response;
       match d with
       | Some record => log INFO (LCreated (record_id record)) ;~ ret true
       | None => raise AttributeError
       end)
    (fun e => log ERROR (LCreateRecordFailed e) ;~ ret false).

Definition send_message (chat content : pystr) : M bool :=
  try_except
    (response <~ sdk_call (ESend chat content (py "text"))
                          (api_send env chat content (py "text"));
     if negb (success response) then
       log ERROR (LSendFailed (msg response)) ;~
       ret false
     else ret true)
    (fun e => log ERROR (LSendException e) ;~ ret false).

Definition handle_message_event (event : MessageEvent) : M HttpResponse :=
  try_except
    (let chat := ev_chat_id event in
     let chat_type := ev_chat_type event in
     let text := strip (ev_text event) in
     let user_id := ev_user_id event in
     log INFO LMessageReceived ;~
     if bool_decide (chat_type = py "group") && contains (py "@_user_1") text then
       _ <~ send_message chat template;
       set_user_state user_id
         {| chat_id := chat; step := waiting_info;
            created_at := now_isoformat env |} default_ttl ;~
       ret (JMsg (py "Message processed"), 200%Z)
     else if bool_decide (chat_type = py "p2p") then
       user_state <~ get_user_state user_id;
       match user_state with
       | Some st =>
         if bool_decide (step st = waiting_info) then
           customer_info <~ lift (parse_customer_info text);
           if bool_decide (customer_info ≠ ∅) then
             let phone := customer_info !! lbl_phone in
             let wechat := customer_info !! lbl_wechat in
             if negb (truthy_opt phone) && negb (truthy_opt wechat) then
               _ <~ send_message (chat_id st) msg_need_contact;
               ret (JMsg (py "Validation failed"), 200%Z)
             else
               let app_token := bp_app_token parse_base_url in
               tid <~ get_target_table_id;
               dup <~ check_duplicate_record app_token tid phone wechat;
               if fst dup then
                 _ <~ send_message (chat_id st) (msg_duplicate (snd dup));
                 delete_user_state user_id ;~
                 ret (JMsg (py "Duplicate found"), 200%Z)
               else
                 let fields_data : gmap pystr (option pystr) :=
                   <[lbl_channel := Some (default [] (customer_info !! lbl_channel))]>
                   (<[lbl_source := Some (default [] (customer_info !! lbl_source))]>
                   (<[lbl_phone := phone]>
                   (<[lbl_wechat := wechat]> ∅))) in
                 ok <~ create_customer_record app_token tid fields_data;
                 _ <~ send_message (chat_id st)
                        (if ok : bool then msg_success else msg_failure);
                 delete_user_state user_id ;~
                 ret (JMsg (py "Message processed"), 200%Z)
           else
             _ <~ send_message (chat_id st) msg_bad_format;
             ret (JMsg (py "Message processed"), 200%Z)
         else ret (JMsg (py "Message processed"), 200%Z)
       | None => ret (JMsg (py "Message processed"), 200%Z)
       end
     else ret (JMsg (py "Message processed"), 200%Z))
    (fun e => log ERROR (LMessageException e) ;~ ret (JErrorOf e, 500%Z)).

Definition webhook (request : Request) : M HttpResponse :=
  try_except
    (let data := req_json request in
     log INFO LWebhookReceived ;~
     if truthy (VERIFICATION_TOKEN env)
        && bool_decide (req_token request ≠ Some (VERIFICATION_TOKEN env))
     then ret (JError (py "Invalid token"), 403%Z)
     else if bool_decide (env_type data = Some (py "url_verification")) then
       ret (JChallenge (env_challenge data), 200%Z)
     else
       match env_event data with
       | Some event =>
         if bool_decide (we_type event = Some (py "im.message.receive_v1"))
         then handle_message_event (we_message event)
         else ret (JMsg (py "Event received"), 200%Z)
       | None => ret (JMsg (py "Event received"), 200%Z)
       end)
    (fun e => log ERROR (LWebhookException e) ;~ ret (JErrorOf e, 500%Z)).

End FeishuBot.

(** ** main.py *)

Module MainPy.

(** The table name that main.py looks for; also the default of
    [TARGET_TABLE_NAME] in feishu_bot.py. *)
Definition target_name : pystr := Eval vm_compute in u "⏰客户管理表".

(** The loop of [parse_base_url] over the listed tables, up to its
    [break]. *)
Fixpoint first_named (tables : list AppTable) : option pystr :=
  match tables with
  | [] => None
  | table :: rest =>
    if bool_decide (table_name table = target_name) then Some (table_id table)
    else first_named rest
  end.

Section Main.

Variable env : Env.

(** The [except Exception: print(...); raise] of these functions only
    prints, so it is left out. *)
Definition get_wiki_node_info (tenant_access_token node_token : pystr)
    : M NodeInfo :=
  emit (EHttpWikiNode tenant_access_token node_token) ;~
  match http_wiki_node env tenant_access_token node_token with
  | HttpRaise => raise HTTPError
  | HttpJson code m d =>
    if negb (code =? 0)%Z then raise (WikiNodeFailed m)
    else match d with
         | Some node_info => ret node_info
         | None => raise WikiNodeMissing
         end
  end.

Definition list_bitable_tables (tenant_access_token app_token : pystr)
    : M (list AppTable) :=
  emit (EHttpListTables tenant_access_token app_token) ;~
  match http_list_tables env tenant_access_token app_token with
  | HttpRaise => raise HTTPError
  | HttpJson code m d =>
    if negb (code =? 0)%Z then raise (ListTablesFailed m)
    else match d with
         | Some tables => ret tables
         | None => ret []
         end
  end.

Definition parse_base_url (tenant_access_token : pystr) (base_url : Url)
    : M BaseParams :=
  let pathname := url_path base_url in
  let app_token := List.last (split_on slash pathname) [] in
  app_token <~
    (if contains (py "/wiki/") pathname then
       node_info <~ get_wiki_node_info tenant_access_token app_token;
       ret (default app_token (obj_token node_info))
     else ret app_token);
  let view_id := query_first (url_query base_url) (py "view") in
  let table_id := query_first (url_query base_url) (py "table") in
  table_id <~
    match table_id with
    | None =>
      tables <~ list_bitable_tables tenant_access_token app_token;
      match first_named tables with
      | None => raise TableIdUnresolved
      | Some tid => ret (Some tid)
      end
    | Some tid => ret (Some tid)
    end;
  ret {| bp_app_token := app_token; bp_table_id := table_id;
         bp_view_id := view_id |}.

End Main.

End MainPy.

(** ** Reading a trace *)

(** The messages sent: chat and text of each [ESend]. *)
Fixpoint sent_messages (evs : list event) : list (pystr * pystr) :=
  match evs with
  | [] => []
  | ESend chat content _ :: r => (chat, content) :: sent_messages r
  | _ :: r => sent_messages r
  end.

(** The requests that [create_customer_record] issues. *)
Definition is_writer_request (e : event) : bool :=
  match e with
  | EListFields _ _ | ECreate _ _ _ => true
  | _ => false
  end.

(** The record searches issued. *)
Definition is_search_request (e : event) : bool :=
  match e with
  | ESearch _ _ _ _ => true
  | _ => false
  end.

Definition is_log (e : event) : bool :=
  match e with
  | ELog _ _ => true
  | _ => false
  end.

(** Neither a message nor a request of [create_customer_record]. *)
Definition is_quiet (e : event) : bool :=
  match e with
  | ESend _ _ _ | EListFields _ _ | ECreate _ _ _ => false
  | _ => true
  end.

(** The handler run over a sequence of message events. *)
Fixpoint handle_all (env : Env) (events : list MessageEvent) (w : World)
    : list (result HttpResponse) * World :=
  match events with
  | [] => ([], w)
  | e :: rest =>
    let '(r, w') := handle_message_event env e w in
    let '(rs, w'') := handle_all env rest w' in
    (r :: rs, w'')
  end.

(** ** A concrete environment *)

(** A stand-in for [json.dumps] and [json.loads] on sessions: the
    three fields, each preceded by its length. *)
Definition demo_dumps (s : Session) : pystr :=
  Z.of_nat (length (chat_id s)) :: chat_id s
    ++ Z.of_nat (length (step s)) :: step s ++ created_at s.

Definition demo_loads (t : pystr) : option Session :=
  match t with
  | [] => None
  | n :: r =>
    let c := take (Z.to_nat n) r in
    match drop (Z.to_nat n) r with
    | [] => None
    | m :: r' =>
      Some {| chat_id := c; step := take (Z.to_nat m) r';
              created_at := drop (Z.to_nat m) r' |}
    end
  end.

Definition ok_response {D} (d : D) : Response D :=
  {| success := true; msg := py "success"; data := Some d |}.

Definition demo_url : Url :=
  {| url_path := py "/base/PzITbIyJfaB03BsqVtIcrjtznFf";
     url_query := {[ py "from" := (py "from_copylink", []) ]} |}.

Definition demo_schema : list FieldItem :=
  [ {| item_field_id := py "fld1"; item_field_name := lbl_channel; item_type := 3;
       item_property := PropDict (Some
         [ {| opt_name := u "广告"; opt_id := py "opt_1" |};
           {| opt_name := u "推荐"; opt_id := py "opt_3" |} ]) |};
    {| item_field_id := py "fld2"; item_field_name := lbl_phone; item_type := 1;
       item_property := PropNone |} ].

(** A table store with one customer table and one record that every
    search finds. *)
Definition demo_env : Env :=
  {| BASE_URL := demo_url;
     TARGET_TABLE_NAME := MainPy.target_name;
     VERIFICATION_TOKEN := [];
     now_isoformat := py "2026-01-01T00:00:00";
     today := py "2026-01-01";
     json_dumps := demo_dumps;
     json_loads := demo_loads;
     api_send := fun _ _ _ => ApiResp (ok_response tt);
     api_list_tables := fun _ => ApiResp (ok_response (Some
       [ {| table_name := py "other"; table_id := py "tbl0" |};
         {| table_name := MainPy.target_name; table_id := py "tbl1" |} ]));
     api_list_fields := fun _ _ => ApiResp (ok_response (Some demo_schema));
     api_search := fun _ _ _ _ =>
       ApiResp (ok_response (Some [ {| record_id := py "rec9" |} ]));
     api_create := fun _ _ _ =>
       ApiResp (ok_response (Some {| record_id := py "rec10" |}));
     http_wiki_node := fun _ _ => HttpRaise;
     http_list_tables := fun _ _ => HttpJson 0 (py "success") (Some
       [ {| table_name := MainPy.target_name; table_id := py "tbl1" |} ]) |}.

Definition demo_session : Session :=
  {| chat_id := py "oc_1"; step := waiting_info; created_at := py "t0" |}.

(** A world where user [ou_1] has been prompted. *)
Definition demo_world : World :=
  {| redis_client := Some {[ user_state_key (Some (py "ou_1")) :=
                              (demo_dumps demo_session, 300%Z) ]};
     trace := [] |}.

Definition degraded_world : World := connect_redis None.

(** ** Statements and concrete inputs of the properties *)

(** The text [pre ++ "电话" ++ c ++ value ++ post] holds the line
    "电话：<value>" and names no other label: [c] is one of the two
    colons, [value] runs to the end of its line, "电话" does not occur
    before it, and none of "渠道", "来源", "微信" occurs at all. *)
Definition only_phone_line (pre : pystr) (c : Z) (value post : pystr) : Prop :=
  c ∈ colons /\
  (newline ∉ value) /\
  (post = [] \/ exists t, post = newline :: t) /\
  contains lbl_phone pre = false /\
  forall lbl, lbl ∈ [lbl_channel; lbl_source; lbl_wechat] ->
              contains lbl (pre ++ lbl_phone ++ c :: value ++ post) = false.

(** None of the four labels occurs in [text]. *)
Definition no_label (text : pystr) : Prop :=
  forall lbl, lbl ∈ [lbl_channel; lbl_source; lbl_phone; lbl_wechat] ->
              contains lbl text = false.

(** The extraction property with the value of the line left
    unconstrained. *)
Definition extracts_any_phone_line : Prop :=
  (forall pre c value post,
     only_phone_line pre c value post ->
     parse_customer_info (pre ++ lbl_phone ++ c :: value ++ post)
     = Ok {[ lbl_phone := strip value ]}) /\
  (forall text, no_label text -> parse_customer_info text = Ok ∅).

(** A call of the SDK that raised or returned a response that is not a
    success. *)
Definition call_failed {D} (r : api_result D) : Prop :=
  r = ApiRaise \/ exists resp, r = ApiResp resp /\ success resp = false.

(** The demo table store with a record search that raises. *)
Definition search_down_env : Env :=
  {| BASE_URL := BASE_URL demo_env;
     TARGET_TABLE_NAME := TARGET_TABLE_NAME demo_env;
     VERIFICATION_TOKEN := VERIFICATION_TOKEN demo_env;
     now_isoformat := now_isoformat demo_env;
     today := today demo_env;
     json_dumps := json_dumps demo_env;
     json_loads := json_loads demo_env;
     api_send := api_send demo_env;
     api_list_tables := api_list_tables demo_env;
     api_list_fields := api_list_fields demo_env;
     api_search := fun _ _ _ _ => ApiRaise;
     api_create := api_create demo_env;
     http_wiki_node := http_wiki_node demo_env;
     http_list_tables := http_list_tables demo_env |}.

(** The events that a run added to the trace. *)
Definition events_since (w w' : World) : list event :=
  drop (length (trace w)) (trace w').

(** The trigger property with the session store left unconstrained: a
    group message that mentions the bot, from a user without a session,
    sends the template once and leaves a session with step
    "waiting_info" and a time-to-live of 300 seconds in the store. *)
Definition trigger_always_opens_session : Prop :=
  forall env event w,
    ev_chat_type event = py "group" ->
    contains (py "@_user_1") (strip (ev_text event)) = true ->
    fst (get_user_state env (ev_user_id event) w) = Ok None ->
    let w' := snd (handle_message_event env event w) in
    sent_messages (events_since w w') = [(ev_chat_id event, template)] /\
    exists store sess,
      redis_client w' = Some store /\
      store !! user_state_key (ev_user_id event)
        = Some (json_dumps env sess, 300%Z) /\
      step sess = waiting_info.

Definition demo_trigger : MessageEvent :=
  {| ev_chat_id := py "oc_1"; ev_chat_type := py "group";
     ev_text := py "@_user_1 hello"; ev_user_id := Some (py "ou_2") |}.

Definition demo_reply_channel : MessageEvent :=
  {| ev_chat_id := py "oc_p"; ev_chat_type := py "p2p";
     ev_text := lbl_channel ++ 65306%Z :: py "web";
     ev_user_id := Some (py "ou_1") |}.

(** The handshake property with token and header left unconstrained. *)
Definition challenge_always_echoed : Prop :=
  forall env request c w,
    env_type (req_json request) = Some (py "url_verification") ->
    env_challenge (req_json request) = Some c ->
    fst (webhook env request w) = Ok (JChallenge (Some c), 200%Z).

Definition demo_handshake : Request :=
  {| req_json := {| env_type := Some (py "url_verification");
                    env_challenge := Some (py "abc");
                    env_event := None |};
     req_token := None |}.

(** The demo table store behind a configured verification token. *)
Definition token_env : Env :=
  {| BASE_URL := BASE_URL demo_env;
     TARGET_TABLE_NAME := TARGET_TABLE_NAME demo_env;
     VERIFICATION_TOKEN := py "secret";
     now_isoformat := now_isoformat demo_env;
     today := today demo_env;
     json_dumps := json_dumps demo_env;
     json_loads := json_loads demo_env;
     api_send := api_send demo_env;
     api_list_tables := api_list_tables demo_env;
     api_list_fields := api_list_fields demo_env;
     api_search := api_search demo_env;
     api_create := api_create demo_env;
     http_wiki_node := http_wiki_node demo_env;
     http_list_tables := http_list_tables demo_env |}.

(** From [w] to [w'] only quiet events were added, and a Redis client
    that was there is still there. *)
Definition quiet_step (w w' : World) : Prop :=
  exists evs,
    trace w' = trace w ++ evs /\
    Forall (fun e => is_quiet e = true) evs /\
    (is_Some (redis_client w) -> is_Some (redis_client w')).

Definition quiet {A} (m : M A) : Prop :=
  forall w r w', m w = (r, w') -> quiet_step w w'.

Definition demo_reply_phone : MessageEvent :=
  {| ev_chat_id := py "oc_p"; ev_chat_type := py "p2p";
     ev_text := lbl_phone ++ 65306%Z :: py "138";
     ev_user_id := Some (py "ou_1") |}.

(** The schema defines, for the single-select field [fld], the option
    [o] with text [v]. *)
Definition defines_option (schema : list FieldInfo) (fld v : pystr)
    (o : SelectOption) : Prop :=
  exists f, f ∈ schema /\ field_name f = fld /\ type f = 3%Z /\
            o ∈ default [] (property f) /\ opt_name o = v.

(** The field mappings of the create requests among some events. *)
Fixpoint create_requests (evs : list event) : list (gmap pystr (option pystr)) :=
  match evs with
  | [] => []
  | ECreate _ _ fields :: r => fields :: create_requests r
  | _ :: r => create_requests r
  end.

(** The Record Writer property with the option ids left unconstrained. *)
Definition writes_id_of_any_match : Prop :=
  forall env app_token tid fields_data w fld v schema,
    fld ∈ enumerated ->
    fields_data !! fld = Some (Some v) ->
    fst (get_table_fields env app_token tid w) = Ok schema ->
    let w' := snd (create_customer_record env app_token tid fields_data w) in
    exists fields,
      create_requests (events_since w w') = [fields] /\
      ((exists o, defines_option schema fld v o) ->
       exists o, defines_option schema fld v o /\
                 fields !! fld = Some (Some (opt_id o))) /\
      ((forall o, ~ defines_option schema fld v o) ->
       fields !! fld = Some (Some v)).

(** The schema that [get_table_fields] builds in the demo store. *)
Definition demo_field_infos : list FieldInfo :=
  [ {| field_id := py "fld1"; field_name := lbl_channel; type := 3;
       property := Some
         [ {| opt_name := u "广告"; opt_id := py "opt_1" |};
           {| opt_name := u "推荐"; opt_id := py "opt_3" |} ] |};
    {| field_id := py "fld2"; field_name := lbl_phone; type := 1;
       property := None |} ].

Definition blank_id_option : SelectOption :=
  {| opt_name := u "推荐"; opt_id := [] |}.

Definition blank_id_field : FieldInfo :=
  {| field_id := py "fld1"; field_name := lbl_channel; type := 3;
     property := Some [blank_id_option] |}.

(** The demo table store with a schema whose option "推荐" has the
    empty id. *)
Definition blank_id_env : Env :=
  {| BASE_URL := BASE_URL demo_env;
     TARGET_TABLE_NAME := TARGET_TABLE_NAME demo_env;
     VERIFICATION_TOKEN := VERIFICATION_TOKEN demo_env;
     now_isoformat := now_isoformat demo_env;
     today := today demo_env;
     json_dumps := json_dumps demo_env;
     json_loads := json_loads demo_env;
     api_send := api_send demo_env;
     api_list_tables := api_list_tables demo_env;
     api_list_fields := fun _ _ => ApiResp (ok_response (Some
       [ {| item_field_id := py "fld1"; item_field_name := lbl_channel;
            item_type := 3;
            item_property := PropDict (Some [blank_id_option]) |} ]));
     api_search := api_search demo_env;
     api_create := api_create demo_env;
     http_wiki_node := http_wiki_node demo_env;
     http_list_tables := http_list_tables demo_env |}.

(** The world after [get_target_table_id] has cached the id of [t]. *)
Definition cache_table (t : AppTable) (w : World) : World :=
  match redis_client w with
  | Some st =>
    {| redis_client := Some (<[cache_key := (table_id t, 3600%Z)]> st);
       trace := trace w |}
  | None => w
  end.

(** The list of tables was fetched and holds [tables]. *)
Definition lists_tables (env : Env) (app_token : pystr) (tables : list AppTable)
    : Prop :=
  exists m, api_list_tables env app_token
            = ApiResp {| success := true; msg := m; data := Some (Some tables) |}.

(** The app token that main.py uses for [url]: the last path segment,
    replaced for a wiki link by the object token of its node. *)
Definition resolves_app_token (env : Env) (token : pystr) (url : Url)
    (app_token : pystr) : Prop :=
  let segment := List.last (split_on slash (url_path url)) [] in
  if contains (py "/wiki/") (url_path url) then
    exists m node_info,
      http_wiki_node env token segment = HttpJson 0 m (Some node_info) /\
      app_token = default segment (obj_token node_info)
  else app_token = segment.

(** The locator property with the cache left unconstrained: whenever
    the table URL has no [table] parameter and the table list can be
    fetched, [get_target_table_id] fetches it and answers by name. *)
Definition locator_always_looks_up : Prop :=
  forall env w tables,
    query_first (url_query (BASE_URL env)) (py "table") = None ->
    lists_tables env (bp_app_token (parse_base_url env)) tables ->
    let run := get_target_table_id env w in
    ((exists t, t ∈ tables /\ table_name t = TARGET_TABLE_NAME env) ->
     EListTables (bp_app_token (parse_base_url env)) ∈ events_since w (snd run) /\
     exists t, t ∈ tables /\ table_name t = TARGET_TABLE_NAME env /\
               fst run = Ok (table_id t)) /\
    ((forall t, t ∈ tables -> table_name t <> TARGET_TABLE_NAME env) ->
     EListTables (bp_app_token (parse_base_url env)) ∈ events_since w (snd run) /\
     fst run = Raise (TableNotFound (TARGET_TABLE_NAME env))).

Definition demo_tables : list AppTable :=
  [ {| table_name := py "other"; table_id := py "tbl0" |};
    {| table_name := MainPy.target_name; table_id := py "tbl1" |} ].

(** The demo table store after its customer table was renamed. *)
Definition renamed_env : Env :=
  {| BASE_URL := BASE_URL demo_env;
     TARGET_TABLE_NAME := TARGET_TABLE_NAME demo_env;
     VERIFICATION_TOKEN := VERIFICATION_TOKEN demo_env;
     now_isoformat := now_isoformat demo_env;
     today := today demo_env;
     json_dumps := json_dumps demo_env;
     json_loads := json_loads demo_env;
     api_send := api_send demo_env;
     api_list_tables := fun _ => ApiResp
       {| success := true; msg := py "success";
          data := Some (Some [ {| table_name := py "other";
                                  table_id := py "tbl0" |} ]) |};
     api_list_fields := api_list_fields demo_env;
     api_search := api_search demo_env;
     api_create := api_create demo_env;
     http_wiki_node := http_wiki_node demo_env;
     http_list_tables := http_list_tables demo_env |}.

(** A world whose Redis still holds a table id resolved earlier. *)
Definition cached_world : World :=
  {| redis_client := Some {[ cache_key := (py "tbl1", 3600%Z) ]};
     trace := [] |}.

(** The four labels of the template. *)
Definition labels : list pystr :=
  [lbl_channel; lbl_source; lbl_phone; lbl_wechat].

(** The handler has nothing to do with [event] in [w]: a group message
    without the mention, a message that is neither from a group nor
    direct, or a direct message from a user whose session is absent or
    in another step. *)
Definition ignored (env : Env) (event : MessageEvent) (w : World) : Prop :=
  (ev_chat_type event = py "group" /\
   contains (py "@_user_1") (strip (ev_text event)) = false) \/
  (ev_chat_type event <> py "group" /\ ev_chat_type event <> py "p2p") \/
  (ev_chat_type event = py "p2p" /\
   (get_user_state env (ev_user_id event) w = (Ok None, w) \/
    exists st, get_user_state env (ev_user_id event) w = (Ok (Some st), w) /\
               step st <> waiting_info)).


Definition demo_reply_plain : MessageEvent :=
  {| ev_chat_id := py "oc_p"; ev_chat_type := py "p2p";
     ev_text := py "hello"; ev_user_id := Some (py "ou_1") |}.


(** The demo table store whose table list cannot be fetched. *)
Definition tables_down_env : Env :=
  {| BASE_URL := BASE_URL demo_env;
     TARGET_TABLE_NAME := TARGET_TABLE_NAME demo_env;
     VERIFICATION_TOKEN := VERIFICATION_TOKEN demo_env;
     now_isoformat := now_isoformat demo_env;
     today := today demo_env;
     json_dumps := json_dumps demo_env;
     json_loads := json_loads demo_env;
     api_send := api_send demo_env;
     api_list_tables := fun _ => ApiRaise;
     api_list_fields := api_list_fields demo_env;
     api_search := api_search demo_env;
     api_create := api_create demo_env;
     http_wiki_node := http_wiki_node demo_env;
     http_list_tables := http_list_tables demo_env |}.

Definition demo_stranger : MessageEvent :=
  {| ev_chat_id := py "oc_q"; ev_chat_type := py "p2p";
     ev_text := lbl_phone ++ 65306%Z :: py "138";
     ev_user_id := Some (py "ou_9") |}.

Definition demo_reply_after_trigger : MessageEvent :=
  {| ev_chat_id := py "oc_p2"; ev_chat_type := py "p2p";
     ev_text := py "hello"; ev_user_id := Some (py "ou_2") |}.

(** The dictionary [f] that [get_table_fields] builds for the field
    [it]: its id, name and type, and the options of its property. *)
Definition describes (it : FieldItem) (f : FieldInfo) : Prop :=
  field_id f = item_field_id it /\
  field_name f = item_field_name it /\
  type f = item_type it /\
  property f = match item_property it with
               | PropDict opts => opts
               | _ => None
               end.

(** The property text of the field is not valid JSON. *)
Definition invalid_property (it : FieldItem) : bool :=
  match item_property it with
  | PropInvalid => true
  | _ => false
  end.

(** The conditions that [check_duplicate_record] builds for one key. *)
Definition condition_for (fname : pystr) (value : option pystr)
    : list Condition :=
  match value with
  | Some v => if truthy v then [is_condition fname v] else []
  | None => []
  end.

(** What [check_duplicate_record] answers on a successful search. *)
Definition first_record (d : option (option (list RecordItem)))
    : bool * option pystr :=
  match d with
  | Some (Some (record :: _)) => (true, Some (record_id record))
  | _ => (false, None)
  end.

(** Whether a create call returned a success response that carries the
    new record. *)
Definition created {A} (r : api_result (option A)) : bool :=
  match r with
  | ApiRaise => false
  | ApiResp resp =>
    success resp && match data resp with
                    | Some (Some _) => true
                    | _ => false
                    end
  end.

(** What [create_customer_record] writes for a key that was not
    supplied with a non-empty value: today's date for "录入日期",
    nothing otherwise. *)
Definition unsupplied (env : Env) (k : pystr) : option (option pystr) :=
  if bool_decide (k = lbl_entry_date) then Some (Some (today env)) else None.

(** Whether a send call returned a success response. *)
Definition delivered (r : api_result unit) : bool :=
  match r with
  | ApiRaise => false
  | ApiResp resp => success resp
  end.

Definition demo_message_request : Request :=
  {| req_json := {| env_type := None; env_challenge := None;
                    env_event := Some {| we_type := Some (py "im.message.receive_v1");
                                         we_message := demo_stranger |} |};
     req_token := None |}.

(** [env] with another query string in its table URL. *)
Definition with_query (env : Env) (q : gmap pystr (pystr * list pystr)) : Env :=
  {| BASE_URL := {| url_path := url_path (BASE_URL env); url_query := q |};
     TARGET_TABLE_NAME := TARGET_TABLE_NAME env;
     VERIFICATION_TOKEN := VERIFICATION_TOKEN env;
     now_isoformat := now_isoformat env;
     today := today env;
     json_dumps := json_dumps env;
     json_loads := json_loads env;
     api_send := api_send env;
     api_list_tables := api_list_tables env;
     api_list_fields := api_list_fields env;
     api_search := api_search env;
     api_create := api_create env;
     http_wiki_node := http_wiki_node env;
     http_list_tables := http_list_tables env |}.

(** [env] with the table URL at another path. *)
Definition with_path (env : Env) (path : pystr) : Env :=
  {| BASE_URL := {| url_path := path; url_query := url_query (BASE_URL env) |};
     TARGET_TABLE_NAME := TARGET_TABLE_NAME env;
     VERIFICATION_TOKEN := VERIFICATION_TOKEN env;
     now_isoformat := now_isoformat env;
     today := today env;
     json_dumps := json_dumps env;
     json_loads := json_loads env;
     api_send := api_send env;
     api_list_tables := api_list_tables env;
     api_list_fields := api_list_fields env;
     api_search := api_search env;
     api_create := api_create env;
     http_wiki_node := http_wiki_node env;
     http_list_tables := http_list_tables env |}.

(** The demo table store with the HTTP list endpoint out of reach. *)
Definition http_down_env : Env :=
  {| BASE_URL := BASE_URL demo_env;
     TARGET_TABLE_NAME := TARGET_TABLE_NAME demo_env;
     VERIFICATION_TOKEN := VERIFICATION_TOKEN demo_env;
     now_isoformat := now_isoformat demo_env;
     today := today demo_env;
     json_dumps := json_dumps demo_env;
     json_loads := json_loads demo_env;
     api_send := api_send demo_env;
     api_list_tables := api_list_tables demo_env;
     api_list_fields := api_list_fields demo_env;
     api_search := api_search demo_env;
     api_create := api_create demo_env;
     http_wiki_node := http_wiki_node demo_env;
     http_list_tables := fun _ _ => HttpRaise |}.

(** A link that names its table and view. *)
Definition table_url : Url :=
  {| url_path := py "/base/PzITbIyJfaB03BsqVtIcrjtznFf";
     url_query := {[ py "table" := (py "tblX", []);
                     py "view" := (py "vewY", []) ]} |}.

(** A wiki link that names its table. *)
Definition wiki_url : Url :=
  {| url_path := py "/wiki/NodeTok";
     url_query := {[ py "table" := (py "tblX", []) ]} |}.

(** A link to a folder-like path, ending in a slash. *)
Definition slash_url : Url :=
  {| url_path := py "/base/PzITbIyJfaB03BsqVtIcrjtznFf/";
     url_query := {[ py "table" := (py "tblX", []) ]} |}.

(** * Properties *)

(** ** Strings and patterns *)

Lemma strip_prefix_app (p s : pystr) : strip_prefix p (p ++ s) = Some s.
Proof.
  induction p as [|c p IH]; simpl; [reflexivity|].
  by rw Z.eqb_refl.
Qed.

Lemma drop_while_split (p : Z -> bool) (s : pystr) :
  exists ws, s = ws ++ drop_while p s /\ Forall (fun c => p c = true) ws.
Proof.
  induction s as [|c s [ws [Hs Hws]]]; simpl.
  - exists []. by split.
  - destruct (p c) eqn:Hc.
    + exists (c :: ws). split; [by rw /= -Hs | by constructor].
    + exists []. by split.
Qed.

Lemma drop_while_head (p : Z -> bool) (s : pystr) c t :
  drop_while p s = c :: t -> p c = false.
Proof.
  induction s as [|d s IH]; simpl; [done|].
  destruct (p d) eqn:Hd; [done|]. congruence.
Qed.

Lemma drop_while_idemp (p : Z -> bool) (s : pystr) :
  drop_while p (drop_while p s) = drop_while p s.
Proof.
  destruct (drop_while p s) as [|c t] eqn:E; [done|].
  simpl. by rw (drop_while_head _ _ _ _ E).
Qed.

Lemma drop_while_nonblank (p : Z -> bool) (s : pystr) c :
  c ∈ s -> p c = false -> drop_while p s <> [].
Proof.
  induction s as [|d s IH]; simpl; intros Hin Hc.
  - by apply elem_of_nil in Hin.
  - destruct (p d) eqn:Hd; [|done].
    apply elem_of_cons in Hin as [->|Hin]; [congruence|]. by apply IH.
Qed.

Lemma strip_lstrip (s : pystr) : strip (lstrip s) = strip s.
Proof. unfold strip, lstrip. by rw drop_while_idemp. Qed.

(** The equations of the matcher. *)
Lemma rmatch_atom a s g k :
  rmatch (RAtom a) s g k =
  match s with
  | c :: s' => if accepts a c then k s' g else None
  | [] => None
  end.
Proof. reflexivity. Qed.

Lemma rmatch_seq r1 r2 s g k :
  rmatch (RSeq r1 r2) s g k = rmatch r1 s g (fun s' g' => rmatch r2 s' g' k).
Proof. reflexivity. Qed.

Lemma rmatch_star r s g k :
  rmatch (RStar r) s g k = star_loop (rmatch r) k (length s) s g.
Proof. reflexivity. Qed.

Lemma rmatch_group r s g k :
  rmatch (RGroup r) s g k =
  rmatch r s g (fun s' _ => k s' (Some (take (length s - length s') s))).
Proof. reflexivity. Qed.

Lemma rcat_cons r rs : rcat (r :: rs) = RSeq r (rcat rs).
Proof. reflexivity. Qed.

(** A literal prefix of a pattern matches exactly that prefix. *)
Lemma rmatch_lit (l : pystr) rs s g k :
  rmatch (rcat (lit l ++ rs)) s g k =
  match strip_prefix l s with
  | Some s' => rmatch (rcat rs) s' g k
  | None => None
  end.
Proof.
  revert s. induction l as [|c l IH]; intros s; [done|].
  change (lit (c :: l) ++ rs) with (RAtom (AChar c) :: (lit l ++ rs)).
  rw rcat_cons rmatch_seq rmatch_atom.
  destruct s as [|d s]; [done|]. simpl.
  destruct (c =? d)%Z; [apply IH | done].
Qed.

(** Greedy repetition of a one-character pattern takes the longest run
    of accepted characters when the rest of the pattern then succeeds. *)
Lemma star_atom_greedy (a : atom) (k : kont) g res (xs rest : pystr) :
  Forall (fun c => accepts a c = true) xs ->
  match rest with [] => True | y :: _ => accepts a y = false end ->
  k rest g = Some res ->
  forall n, (length (xs ++ rest) <= n)%nat ->
  star_loop (rmatch (RAtom a)) k n (xs ++ rest) g = Some res.
Proof.
  intros Hxs Hrest Hk. induction Hxs as [|x xs Hx _ IH]; intros n Hn.
  - destruct n as [|n]; cbn [star_loop app]; [done|].
    rw rmatch_atom.
    destruct rest as [|y t]; [by rw Hk|]. by rw Hrest Hk.
  - destruct n as [|n]; [simpl in Hn; lia|].
    cbn [star_loop app]. rw rmatch_atom Hx.
    assert ((length (xs ++ rest) <? length (x :: xs ++ rest))%nat = true) as ->
      by (apply Nat.ltb_lt; simpl; lia).
    rw IH; [simpl in Hn; lia | done].
Qed.

Lemma accepts_colon c : c ∈ colons -> accepts (ASet colons) c = true.
Proof.
  intros Hc. unfold accepts. apply existsb_exists. exists c.
  split; [by apply list_elem_of_In | apply Z.eqb_refl].
Qed.

(** The tail [\s*(.+)] of a label pattern on a line whose value is not
    blank: the group is the value without its leading whitespace. *)
Lemma rmatch_value (value post : pystr) c0 :
  c0 ∈ value -> is_space c0 = false ->
  newline ∉ value ->
  (post = [] \/ exists t, post = newline :: t) ->
  rmatch (rcat [RStar (RAtom ASpace); RGroup (RPlus (RAtom ADot))])
         (value ++ post) None (fun _ g => Some g)
  = Some (Some (lstrip value)).
Proof.
  intros Hin Hc0 Hnl Hpost.
  destruct (drop_while_split is_space value) as [ws [Hval Hws]].
  pose proof (drop_while_nonblank is_space value c0 Hin Hc0) as Hne.
  unfold lstrip. destruct (drop_while is_space value) as [|x body] eqn:Hbody; [done|].
  pose proof (drop_while_head _ _ _ _ Hbody) as Hx.
  assert (Hnlb : newline ∉ x :: body).
  { intros Hm. apply Hnl. rw Hval. apply elem_of_app. by right. }
  rw {1}Hval -app_assoc.
  rw !rcat_cons rmatch_seq rmatch_star.
  apply star_atom_greedy; [done | done | | done].
  rw rmatch_seq rmatch_group. unfold RPlus. rw rmatch_seq rmatch_atom.
  cbn [app accepts].
  assert (negb (x =? newline)%Z = true) as ->.
  { apply negb_true_iff, Z.eqb_neq. intros ->. apply Hnlb. by left. }
  rw rmatch_star.
  rw (star_atom_greedy ADot _ _ (Some (x :: body)) body post); try done.
  - apply Forall_forall. intros y Hy. simpl.
    apply negb_true_iff, Z.eqb_neq. intros ->. apply Hnlb. by right.
  - destruct Hpost as [->|[t ->]]; done.
  - simpl. f_equal. f_equal.
    replace (S (length (body ++ post)) - length post)%nat
      with (length (x :: body)) by (rw length_app /=; lia).
    change (x :: body ++ post) with ((x :: body) ++ post).
    by rw take_app_length.
Qed.

(** A label pattern anchored on the label itself. *)
Lemma re_match_label (lbl value post : pystr) c c0 :
  c ∈ colons ->
  c0 ∈ value -> is_space c0 = false ->
  newline ∉ value ->
  (post = [] \/ exists t, post = newline :: t) ->
  re_match (label_pattern lbl) (lbl ++ c :: value ++ post)
  = Some (Some (lstrip value)).
Proof.
  intros Hc Hin Hc0 Hnl Hpost.
  unfold re_match, label_pattern. rw rmatch_lit strip_prefix_app.
  rw rcat_cons rmatch_seq rmatch_atom (accepts_colon _ Hc).
  by apply (rmatch_value value post c0).
Qed.

Lemma re_match_no_prefix (lbl s : pystr) :
  startswith lbl s = false -> re_match (label_pattern lbl) s = None.
Proof.
  unfold startswith, re_match, label_pattern. rw rmatch_lit.
  by destruct (strip_prefix lbl s).
Qed.

(** A text without the label has no match of its pattern. *)
Lemma re_search_absent (lbl s : pystr) :
  contains lbl s = false -> re_search (label_pattern lbl) s = None.
Proof.
  induction s as [|c s IH]; simpl; intros H; apply orb_false_iff in H as [H1 H2].
  - by rw re_match_no_prefix.
  - rw re_match_no_prefix; [done | by apply IH].
Qed.

Lemma contains_app_r (sub s t : pystr) :
  contains sub (s ++ t) = false -> contains sub t = false.
Proof.
  induction s as [|c s IH]; simpl; [done|].
  intros H. apply orb_false_iff in H as [_ H]. by apply IH.
Qed.

(** Before the first occurrence of a two-character label nothing
    matches its pattern. *)
Lemma re_search_skip (a b : Z) (pre rest : pystr) :
  a <> b ->
  contains [a; b] pre = false ->
  re_search (label_pattern [a; b]) (pre ++ a :: b :: rest)
  = re_search (label_pattern [a; b]) (a :: b :: rest).
Proof.
  intros Hab. induction pre as [|x pre IH]; [done|].
  intros H. simpl in H. apply orb_false_iff in H as [H1 H2].
  change ((x :: pre) ++ a :: b :: rest) with (x :: (pre ++ a :: b :: rest)).
  cbn [re_search]. rw re_match_no_prefix; [|by apply IH].
  unfold startswith in *. simpl in *.
  destruct (a =? x)%Z eqn:Hax; [|done].
  destruct pre as [|y pre]; simpl in *.
  - apply Z.eqb_eq in Hax. subst x.
    destruct (b =? a)%Z eqn:Hba; [|done]. apply Z.eqb_eq in Hba. congruence.
  - by destruct (b =? y)%Z.
Qed.

(** Non-membership in a concrete string. *)
Ltac solve_not_elem :=
  let H := fresh in
  intros H; vm_compute in H;
  repeat (apply elem_of_cons in H as [H|H]; [discriminate H|]);
  by apply elem_of_nil in H.

(** ** Field Extractor *)

Lemma parse_no_label (text : pystr) :
  no_label text -> parse_customer_info text = Ok ∅.
Proof.
  intros H. unfold parse_customer_info, patterns. cbn [parse_fields].
  rw !re_search_absent //; apply H; by repeat constructor.
Qed.

Lemma parse_phone_line pre c value post c0 :
  only_phone_line pre c value post ->
  c0 ∈ value -> is_space c0 = false ->
  parse_customer_info (pre ++ lbl_phone ++ c :: value ++ post)
  = Ok {[ lbl_phone := strip value ]}.
Proof.
  intros (Hc & Hnl & Hpost & Hpre & Hother) Hin Hc0.
  unfold parse_customer_info, patterns. cbn [parse_fields].
  rw (re_search_absent lbl_channel); [apply Hother; by repeat constructor|].
  rw (re_search_absent lbl_source); [apply Hother; by repeat constructor|].
  rw (re_search_absent lbl_wechat); [apply Hother; by repeat constructor|].
  assert (re_search (label_pattern lbl_phone)
            (pre ++ lbl_phone ++ c :: value ++ post)
          = Some (Some (lstrip value))) as ->.
  { unfold lbl_phone in *. cbn [app]. rw re_search_skip //.
    cbn [re_search].
    by rw (re_match_label [30005; 35805]%Z value post c c0). }
  by rw strip_lstrip insert_empty.
Qed.

(** C5, as amended.  For every text that holds a line "电话：<value>"
    whose value has at least one character that is not whitespace, and
    that names no other label, [parse_customer_info] returns exactly
    the one-entry mapping from "电话" to the value stripped of
    surrounding whitespace; and for every text in which none of the
    four labels occurs it returns the empty mapping, without raising. *)
Theorem field_extractor_phone_only :
  (forall pre c value post,
     only_phone_line pre c value post ->
     (exists c0, c0 ∈ value /\ is_space c0 = false) ->
     parse_customer_info (pre ++ lbl_phone ++ c :: value ++ post)
     = Ok {[ lbl_phone := strip value ]}) /\
  (forall text, no_label text -> parse_customer_info text = Ok ∅).
Proof.
  split.
  - intros pre c value post Hline (c0 & Hin & Hc0).
    by apply (parse_phone_line pre c value post c0).
  - apply parse_no_label.
Qed.

Lemma only_phone_line_demo (value : pystr) :
  newline ∉ value ->
  contains lbl_channel (lbl_phone ++ 65306%Z :: value) = false ->
  contains lbl_source (lbl_phone ++ 65306%Z :: value) = false ->
  contains lbl_wechat (lbl_phone ++ 65306%Z :: value) = false ->
  only_phone_line [] 65306%Z value [].
Proof.
  intros Hnl H1 H2 H3. unfold only_phone_line. rw !app_nil_r.
  split; [unfold colons; by repeat constructor|].
  split; [done|]. split; [by left|]. split; [done|].
  intros lbl Hl. cbn [app].
  apply elem_of_cons in Hl as [->|Hl]; [done|].
  apply elem_of_cons in Hl as [->|Hl]; [done|].
  apply elem_of_cons in Hl as [->|Hl]; [done|].
  by apply elem_of_nil in Hl.
Qed.

(** The text "电话：138" yields {电话: "138"}, the text "hello" yields
    the empty mapping. *)
Lemma field_extractor_phone_only_witness :
  parse_customer_info (lbl_phone ++ 65306%Z :: py "138" ++ [])
    = Ok {[ lbl_phone := strip (py "138") ]}
  /\ parse_customer_info (py "hello") = Ok ∅.
Proof.
  split.
  - apply (proj1 field_extractor_phone_only [] 65306%Z (py "138") []).
    + apply only_phone_line_demo; [|reflexivity..].
      solve_not_elem.
    + exists 49%Z. split; [by repeat constructor | reflexivity].
  - apply (proj2 field_extractor_phone_only (py "hello")).
    intros lbl Hl.
    apply elem_of_cons in Hl as [->|Hl]; [reflexivity|].
    apply elem_of_cons in Hl as [->|Hl]; [reflexivity|].
    apply elem_of_cons in Hl as [->|Hl]; [reflexivity|].
    apply elem_of_cons in Hl as [->|Hl]; [reflexivity|].
    by apply elem_of_nil in Hl.
Defined.

(** C5, counterexample.  The text "电话：" holds the line with the empty
    value and no other label, and the extractor returns the empty
    mapping, not {电话: ""}: the pattern asks for at least one
    character after the colon. *)
Lemma empty_phone_value_not_extracted : ~ extracts_any_phone_line.
Proof.
  intros [H _].
  specialize (H [] 65306%Z [] []).
  assert (Hline : only_phone_line [] 65306%Z [] []).
  { apply only_phone_line_demo; [|reflexivity..]. by intros Hm%elem_of_nil. }
  specialize (H Hline).
  assert (Hrun : parse_customer_info ([] ++ lbl_phone ++ [65306%Z] ++ [])
                 = Ok ∅) by reflexivity.
  cbn [app] in H, Hrun. rw Hrun in H.
  apply (f_equal (fun r => match r with
                           | Ok m => m !! lbl_phone
                           | Raise _ => None
                           end)) in H.
  by rw lookup_empty lookup_singleton_eq in H.
Qed.

(** ** Running effectful code *)

Lemma bind_run {A B} (m : M A) (f : A -> M B) w r w' :
  m w = (r, w') ->
  bind m f w = match r with
               | Ok a => f a w'
               | Raise e => (Raise e, w')
               end.
Proof. intros H. unfold bind. by rw H. Qed.

Lemma try_except_run {A} (m : M A) (h : exn -> M A) w r w' :
  m w = (r, w') ->
  try_except m h w = match r with
                     | Ok a => (Ok a, w')
                     | Raise e => h e w'
                     end.
Proof. intros H. unfold try_except. by rw H. Qed.

Lemma add_events_nil w : add_events [] w = w.
Proof. destruct w. unfold add_events. simpl. by rw app_nil_r. Qed.

Lemma add_events_app evs1 evs2 w :
  add_events evs2 (add_events evs1 w) = add_events (evs1 ++ evs2) w.
Proof. unfold add_events. simpl. by rw app_assoc. Qed.

Lemma sent_messages_app evs1 evs2 :
  sent_messages (evs1 ++ evs2) = sent_messages evs1 ++ sent_messages evs2.
Proof.
  induction evs1 as [|e evs1 IH]; [done|].
  destruct e; simpl; by rw ?IH.
Qed.

Lemma sent_messages_quiet evs :
  Forall (fun e => is_quiet e = true) evs -> sent_messages evs = [].
Proof. induction 1 as [|e evs He _ IH]; [done|]. by destruct e. Qed.

Lemma quiet_not_writer evs :
  Forall (fun e => is_quiet e = true) evs ->
  Forall (fun e => is_writer_request e = false) evs.
Proof. intros H. eapply Forall_impl; [exact H|]. by intros []. Qed.

Lemma log_quiet evs :
  Forall (fun e => is_log e = true) evs -> Forall (fun e => is_quiet e = true) evs.
Proof. intros H. eapply Forall_impl; [exact H|]. by intros []. Qed.

(** [send_message] never raises: it issues the one request, and logs
    when the request fails. *)
Lemma send_message_run env chat content w :
  exists b evs,
    send_message env chat content w
      = (Ok b, add_events (ESend chat content (py "text") :: evs) w)
    /\ Forall (fun e => is_log e = true) evs.
Proof.
  unfold send_message, try_except, sdk_call, bind, emit, log, emit.
  destruct (api_send env chat content (py "text")) as [|r]; simpl.
  - eexists _, [_]. rw add_events_app. split; [done|]. by repeat constructor.
  - destruct (success r); simpl.
    + exists true, []. by split.
    + eexists _, [_]. rw add_events_app. split; [done|]. by repeat constructor.
Qed.

(** The session store only reads the Redis client. *)
Lemma get_user_state_frame env uid w r w' evs :
  get_user_state env uid w = (r, w') ->
  w' = w /\ get_user_state env uid (add_events evs w) = (r, add_events evs w).
Proof.
  unfold get_user_state, bind, get_redis_client. simpl.
  destruct (redis_client w) as [st|]; [|by intros [= <- <-]].
  destruct (redis_get st _) as [v|]; [|by intros [= <- <-]].
  destruct (truthy v); [|by intros [= <- <-]].
  destruct (json_loads env v); by intros [= <- <-].
Qed.

Lemma get_user_state_Some env uid w st :
  get_user_state env uid w = (Ok (Some st), w) ->
  exists store, redis_client w = Some store.
Proof.
  unfold get_user_state, bind, get_redis_client. simpl.
  destruct (redis_client w) as [store|]; [by eexists | done].
Qed.

(** ** Duplicate Checker *)

(** C10.  With phone and social handle both absent ([None] or the empty
    string), [check_duplicate_record] returns [(False, None)] at once:
    the world is unchanged, so no search request went out, nothing was
    logged and nothing was raised. *)
Theorem check_duplicate_without_keys env app_token tid phone wechat w :
  truthy_opt phone = false ->
  truthy_opt wechat = false ->
  check_duplicate_record env app_token tid phone wechat w
  = (Ok (false, None), w).
Proof.
  intros Hp Hw. unfold check_duplicate_record, try_except.
  destruct phone as [[|p0 p]|], wechat as [[|w0 q]|]; done.
Qed.

Lemma check_duplicate_without_keys_witness :
  check_duplicate_record demo_env (py "app") (py "tbl1") None (Some []) demo_world
  = (Ok (false, None), demo_world).
Proof.
  apply (check_duplicate_without_keys demo_env (py "app") (py "tbl1")
           None (Some []) demo_world); reflexivity.
Defined.

(** C6.  With a phone or a social handle given, a record search that
    fails (the call raises, or its response is not a success) makes
    [check_duplicate_record] return [(False, None)]: it returns
    normally, having issued the one search and logged the failure. *)
Theorem check_duplicate_fails_open env app_token tid phone wechat w :
  truthy_opt phone = true \/ truthy_opt wechat = true ->
  (forall names f, call_failed (api_search env app_token tid names f)) ->
  exists f l,
    check_duplicate_record env app_token tid phone wechat w
    = (Ok (false, None),
       add_events [ESearch app_token tid [lbl_customer_id] f; ELog ERROR l] w).
Proof.
  intros Hkey Hfail.
  unfold check_duplicate_record, try_except, sdk_call, bind, log, emit.
  destruct phone as [[|p0 p]|], wechat as [[|w0 q]|];
    simpl in Hkey; try (by destruct Hkey);
    cbn [truthy app];
    match goal with
    | |- context [api_search env app_token tid ?n ?f] =>
      destruct (Hfail n f) as [E|[resp [E Hs]]]; rw E
    end;
    eexists _, _; unfold raise, ret; rw ?Hs; cbn [negb];
    rw add_events_app; reflexivity.
Qed.

Lemma check_duplicate_fails_open_witness :
  exists f l,
    check_duplicate_record search_down_env (py "app") (py "tbl1")
      (Some (py "138")) None demo_world
    = (Ok (false, None),
       add_events [ESearch (py "app") (py "tbl1") [lbl_customer_id] f;
                   ELog ERROR l] demo_world).
Proof.
  apply (check_duplicate_fails_open search_down_env (py "app") (py "tbl1")
           (Some (py "138")) None demo_world).
  - left. reflexivity.
  - intros names f. left. reflexivity.
Defined.

(** ** Session Store and Conversation State Machine *)

Lemma log_run l m w : log l m w = (Ok tt, add_events [ELog l m] w).
Proof. reflexivity. Qed.

Lemma set_user_state_run env uid st ttl w :
  set_user_state env uid st ttl w =
  (Ok tt,
   match redis_client w with
   | Some store =>
     {| redis_client :=
          Some (<[user_state_key uid := (json_dumps env st, ttl)]> store);
        trace := trace w |}
   | None => w
   end).
Proof.
  unfold set_user_state, bind, get_redis_client.
  by destruct (redis_client w).
Qed.

Lemma delete_user_state_run uid w :
  delete_user_state uid w =
  (Ok tt,
   match redis_client w with
   | Some store =>
     {| redis_client := Some (delete (user_state_key uid) store);
        trace := trace w |}
   | None => w
   end).
Proof.
  unfold delete_user_state, bind, get_redis_client.
  by destruct (redis_client w).
Qed.

Lemma get_user_state_degraded env uid w :
  redis_client w = None -> get_user_state env uid w = (Ok None, w).
Proof.
  intros H. unfold get_user_state, bind, get_redis_client. by rw H.
Qed.

(** A trigger in a group chat: the template goes out, then the session
    is stored if there is a store. *)
Lemma handle_trigger env event w :
  ev_chat_type event = py "group" ->
  contains (py "@_user_1") (strip (ev_text event)) = true ->
  exists evs,
    handle_message_event env event w
    = (Ok (JMsg (py "Message processed"), 200%Z),
       match redis_client w with
       | Some store =>
         {| redis_client :=
              Some (<[user_state_key (ev_user_id event) :=
                        (json_dumps env
                           {| chat_id := ev_chat_id event; step := waiting_info;
                              created_at := now_isoformat env |}, default_ttl)]>
                      store);
            trace := trace w ++ evs |}
       | None => add_events evs w
       end)
    /\ sent_messages evs = [(ev_chat_id event, template)].
Proof.
  intros Hgroup Hmention.
  destruct (send_message_run env (ev_chat_id event) template
              (add_events [ELog INFO LMessageReceived] w))
    as (b & evs & Hsend & Hlogs).
  rw add_events_app in Hsend.
  eexists. split.
  - unfold handle_message_event.
    erewrite try_except_run; cycle 1.
    { erewrite bind_run; [|apply log_run]. cbv beta iota.
      rw Hgroup Hmention bool_decide_eq_true_2 //. cbn [andb].
      erewrite bind_run; [|exact Hsend]. cbv beta iota.
      erewrite bind_run; [|apply set_user_state_run]. reflexivity. }
    cbv beta iota. cbn [add_events redis_client trace].
    by destruct (redis_client w).
  - cbn [app sent_messages]. f_equal.
    by apply sent_messages_quiet, log_quiet.
Qed.

(** Without a Redis client every message is answered with
    "Message processed" and the client stays absent. *)
Lemma handle_degraded env event w :
  redis_client w = None ->
  exists evs,
    handle_message_event env event w
    = (Ok (JMsg (py "Message processed"), 200%Z), add_events evs w).
Proof.
  intros Hr. unfold handle_message_event.
  destruct (bool_decide (ev_chat_type event = py "group")
            && contains (py "@_user_1") (strip (ev_text event))) eqn:Hc.
  - destruct (send_message_run env (ev_chat_id event) template
                (add_events [ELog INFO LMessageReceived] w))
      as (b & evs & Hsend & _).
    rw add_events_app in Hsend.
    eexists. erewrite try_except_run; cycle 1.
    { erewrite bind_run; [|apply log_run]. cbv beta iota.
      erewrite bind_run; [|exact Hsend]. cbv beta iota.
      erewrite bind_run; [|apply set_user_state_run]. reflexivity. }
    cbv beta iota. cbn [add_events redis_client]. by rw Hr.
  - destruct (bool_decide (ev_chat_type event = py "p2p")) eqn:Hp.
    + exists [ELog INFO LMessageReceived].
      erewrite try_except_run; cycle 1.
      { erewrite bind_run; [|apply log_run]. cbv beta iota.
        erewrite bind_run; [|by apply get_user_state_degraded]. reflexivity. }
      reflexivity.
    + exists [ELog INFO LMessageReceived].
      erewrite try_except_run; cycle 1.
      { erewrite bind_run; [|apply log_run]. cbv beta iota.
        reflexivity. }
      reflexivity.
Qed.

Lemma handle_all_degraded env events : forall w,
  redis_client w = None ->
  redis_client (snd (handle_all env events w)) = None /\
  Forall (fun r => r = Ok (JMsg (py "Message processed"), 200%Z))
         (fst (handle_all env events w)).
Proof.
  induction events as [|e events IH]; intros w Hr; [by split|].
  destruct (handle_degraded env e w Hr) as [evs He].
  cbn [handle_all]. rw He.
  destruct (IH (add_events evs w) Hr) as [IH1 IH2].
  destruct (handle_all env events (add_events evs w)) as [rs w''].
  split; [done|]. by constructor.
Qed.

(** C9.  When Redis cannot be reached at start-up, the module logs a
    warning and goes on with [redis_client = None].  From then on
    [get_user_state] returns [None] for every user, [set_user_state]
    and [delete_user_state] change nothing, and whatever messages
    arrive, each is answered normally (200), the client stays absent
    and every user is still without a session afterwards. *)
Theorem session_store_unavailable env :
  (redis_client (connect_redis None) = None /\
   ELog WARNING LRedisFailed ∈ trace (connect_redis None)) /\
  forall w, redis_client w = None ->
    (forall uid, get_user_state env uid w = (Ok None, w)) /\
    (forall uid st ttl, set_user_state env uid st ttl w = (Ok tt, w)) /\
    (forall uid, delete_user_state uid w = (Ok tt, w)) /\
    (forall events,
       Forall (fun r => r = Ok (JMsg (py "Message processed"), 200%Z))
              (fst (handle_all env events w)) /\
       redis_client (snd (handle_all env events w)) = None /\
       forall uid,
         fst (get_user_state env uid (snd (handle_all env events w))) = Ok None).
Proof.
  split; [split; [done | by constructor]|].
  intros w Hr. repeat split.
  - intros uid. by apply get_user_state_degraded.
  - intros uid st ttl. by rw set_user_state_run Hr.
  - intros uid. by rw delete_user_state_run Hr.
  - by apply handle_all_degraded.
  - by apply handle_all_degraded.
  - intros uid. rw get_user_state_degraded //. by apply handle_all_degraded.
Qed.

Lemma session_store_unavailable_witness :
  redis_client degraded_world = None /\
  Forall (fun r => r = Ok (JMsg (py "Message processed"), 200%Z))
    (fst (handle_all demo_env
            [ {| ev_chat_id := py "oc_1"; ev_chat_type := py "group";
                 ev_text := py "@_user_1 hi"; ev_user_id := Some (py "ou_1") |};
              {| ev_chat_id := py "oc_p"; ev_chat_type := py "p2p";
                 ev_text := lbl_phone ++ 65306%Z :: py "138";
                 ev_user_id := Some (py "ou_1") |} ]
            degraded_world)).
Proof.
  split; [reflexivity|].
  apply (proj2 (session_store_unavailable demo_env) degraded_world eq_refl).
Defined.

Lemma events_since_app w w' evs :
  trace w' = trace w ++ evs -> events_since w w' = evs.
Proof. intros H. unfold events_since. by rw H drop_app_length. Qed.

(** C4, as amended.  Every group message that mentions the bot
    ("@_user_1" in its text) is answered with exactly one message, the
    template, sent to the chat of the message.  When the session store
    is available ([redis_client] is not [None]) the store then holds for
    the sender a session with that chat, step "waiting_info" and a
    time-to-live of 300 seconds, and nothing else in the store changes.
    When the store is unavailable it stays unavailable: no session is
    stored, and no user has one afterwards. *)
Theorem trigger_opens_session env event w :
  ev_chat_type event = py "group" ->
  contains (py "@_user_1") (strip (ev_text event)) = true ->
  exists evs,
    sent_messages evs = [(ev_chat_id event, template)] /\
    handle_message_event env event w
    = (Ok (JMsg (py "Message processed"), 200%Z),
       {| redis_client :=
            match redis_client w with
            | Some store =>
              Some (<[user_state_key (ev_user_id event) :=
                        (json_dumps env
                           {| chat_id := ev_chat_id event; step := waiting_info;
                              created_at := now_isoformat env |}, 300%Z)]> store)
            | None => None
            end;
          trace := trace w ++ evs |}) /\
    (redis_client w = None ->
     forall uid,
       fst (get_user_state env uid (snd (handle_message_event env event w)))
       = Ok None).
Proof.
  intros Hgroup Hmention.
  destruct (handle_trigger env event w Hgroup Hmention) as (evs & Hrun & Hsent).
  exists evs. split; [exact Hsent|]. split.
  - rw Hrun. unfold add_events. by destruct (redis_client w).
  - intros Hnone uid. rw Hrun Hnone. cbn [snd].
    by rw get_user_state_degraded.
Qed.

Lemma trigger_opens_session_witness :
  (exists evs,
     sent_messages evs = [(py "oc_1", template)] /\
     handle_message_event demo_env demo_trigger demo_world
     = (Ok (JMsg (py "Message processed"), 200%Z),
        {| redis_client :=
             Some (<[user_state_key (Some (py "ou_2")) :=
                       (demo_dumps
                          {| chat_id := py "oc_1"; step := waiting_info;
                             created_at := py "2026-01-01T00:00:00" |}, 300%Z)]>
                     {[ user_state_key (Some (py "ou_1")) :=
                          (demo_dumps demo_session, 300%Z) ]});
           trace := [] ++ evs |}) /\
     (redis_client demo_world = None ->
      forall uid,
        fst (get_user_state demo_env uid
               (snd (handle_message_event demo_env demo_trigger demo_world)))
        = Ok None)) /\
  (exists evs,
     sent_messages evs = [(py "oc_1", template)] /\
     handle_message_event demo_env demo_trigger degraded_world
     = (Ok (JMsg (py "Message processed"), 200%Z),
        {| redis_client := None; trace := trace degraded_world ++ evs |}) /\
     (redis_client degraded_world = None ->
      forall uid,
        fst (get_user_state demo_env uid
               (snd (handle_message_event demo_env demo_trigger degraded_world)))
        = Ok None)).
Proof.
  split.
  - apply (trigger_opens_session demo_env demo_trigger demo_world);
      reflexivity.
  - apply (trigger_opens_session demo_env demo_trigger degraded_world);
      reflexivity.
Defined.

(** C4, counterexample.  Without a Redis client the trigger still
    sends the template, but [set_user_state] does nothing and no
    session is stored. *)
Lemma trigger_without_store : ~ trigger_always_opens_session.
Proof.
  intros H.
  destruct (H demo_env demo_trigger degraded_world eq_refl eq_refl eq_refl)
    as (_ & store & sess & Hstore & _).
  destruct (handle_degraded demo_env demo_trigger degraded_world eq_refl)
    as [evs Hrun].
  rw Hrun in Hstore. discriminate Hstore.
Qed.

Lemma p2p_not_group : py "p2p" <> py "group".
Proof. discriminate. Qed.

(** C3.  A user has a session with step "waiting_info" and sends a
    direct message from which the extractor gets a non-empty mapping
    with neither a phone nor a social handle (absent, or empty).  Then
    exactly one message goes out, the validation failure, to the chat
    of the session; the handler answers "Validation failed"; and the
    Redis store is exactly what it was, so the session is still
    there. *)
Theorem reply_without_contact_keeps_session env event w st ci :
  ev_chat_type event = py "p2p" ->
  get_user_state env (ev_user_id event) w = (Ok (Some st), w) ->
  step st = waiting_info ->
  parse_customer_info (strip (ev_text event)) = Ok ci ->
  ci <> ∅ ->
  truthy_opt (ci !! lbl_phone) = false ->
  truthy_opt (ci !! lbl_wechat) = false ->
  exists w' evs,
    handle_message_event env event w
      = (Ok (JMsg (py "Validation failed"), 200%Z), w') /\
    redis_client w' = redis_client w /\
    trace w' = trace w ++ evs /\
    sent_messages evs = [(chat_id st, msg_need_contact)] /\
    get_user_state env (ev_user_id event) w' = (Ok (Some st), w').
Proof.
  intros Hp2p Hsess Hstep Hparse Hne Hphone Hwechat.
  destruct (get_user_state_frame _ _ _ _ _ [ELog INFO LMessageReceived] Hsess)
    as [_ Hsess'].
  destruct (send_message_run env (chat_id st) msg_need_contact
              (add_events [ELog INFO LMessageReceived] w))
    as (b & evs & Hsend & Hlogs).
  rw add_events_app in Hsend.
  eexists _, _. split; [|split; [|split; [|split]]].
  - unfold handle_message_event.
    erewrite try_except_run; cycle 1.
    { erewrite bind_run; [|apply log_run]. cbv beta iota.
      rw Hp2p (bool_decide_eq_false_2 _ p2p_not_group).
      rw bool_decide_eq_true_2 //. cbn [andb].
      erewrite bind_run; [|exact Hsess']. cbv beta iota.
      rw Hstep bool_decide_eq_true_2 //.
      unfold lift at 1. erewrite bind_run; [|by rw Hparse]. cbv beta iota.
      rw bool_decide_eq_true_2 //.
      rw Hphone Hwechat. cbn [negb andb].
      erewrite bind_run; [|exact Hsend]. reflexivity. }
    reflexivity.
  - reflexivity.
  - reflexivity.
  - cbn [app sent_messages]. f_equal. by apply sent_messages_quiet, log_quiet.
  - by eapply get_user_state_frame.
Qed.

Lemma reply_without_contact_keeps_session_witness :
  exists w' evs,
    handle_message_event demo_env demo_reply_channel demo_world
      = (Ok (JMsg (py "Validation failed"), 200%Z), w') /\
    redis_client w' = redis_client demo_world /\
    trace w' = trace demo_world ++ evs /\
    sent_messages evs = [(chat_id demo_session, msg_need_contact)] /\
    get_user_state demo_env (Some (py "ou_1")) w' = (Ok (Some demo_session), w').
Proof.
  apply (reply_without_contact_keeps_session demo_env demo_reply_channel
           demo_world demo_session {[ lbl_channel := py "web" ]});
    try reflexivity.
  apply map_non_empty_singleton.
Defined.

(** ** Webhook Endpoint *)

(** C2, as amended.  A body with type "url_verification" and challenge
    [c] is answered with 200 and {"challenge": c} when no verification
    token is configured, or when the X-Lark-Verification-Token header
    equals the configured token; with a token configured and a header
    that is missing or different the answer is 403 "Invalid token". *)
Theorem webhook_challenge env request c w :
  env_type (req_json request) = Some (py "url_verification") ->
  env_challenge (req_json request) = Some c ->
  (VERIFICATION_TOKEN env = [] \/
   req_token request = Some (VERIFICATION_TOKEN env) ->
   fst (webhook env request w) = Ok (JChallenge (Some c), 200%Z)) /\
  (VERIFICATION_TOKEN env <> [] ->
   req_token request <> Some (VERIFICATION_TOKEN env) ->
   fst (webhook env request w) = Ok (JError (py "Invalid token"), 403%Z)).
Proof.
  intros Htype Hchal. unfold webhook, try_except, bind, log, emit. cbv beta iota.
  split.
  - intros [Hnone|Hsame].
    + rw Hnone. cbn [truthy andb]. rw Htype bool_decide_eq_true_2 //. by rw Hchal.
    + rw (bool_decide_eq_false_2 (req_token request <> _)); [by intros H|].
      rw andb_false_r Htype bool_decide_eq_true_2 //. by rw Hchal.
  - intros Hset Hdiff. rw bool_decide_eq_true_2 //.
    by destruct (VERIFICATION_TOKEN env).
Qed.

Lemma webhook_challenge_witness :
  fst (webhook demo_env demo_handshake demo_world)
    = Ok (JChallenge (Some (py "abc")), 200%Z) /\
  fst (webhook token_env demo_handshake demo_world)
    = Ok (JError (py "Invalid token"), 403%Z).
Proof.
  split.
  - apply (proj1 (webhook_challenge demo_env demo_handshake (py "abc")
                    demo_world eq_refl eq_refl)).
    left. reflexivity.
  - apply (proj2 (webhook_challenge token_env demo_handshake (py "abc")
                    demo_world eq_refl eq_refl)); discriminate.
Defined.

(** C2, counterexample.  With the token "secret" configured, the
    handshake body sent without the header is answered with 403, not
    with the challenge. *)
Lemma handshake_rejected_without_token : ~ challenge_always_echoed.
Proof.
  intros H.
  specialize (H token_env demo_handshake (py "abc") demo_world eq_refl eq_refl).
  discriminate H.
Qed.

(** ** Code that sends nothing and writes no record *)

Lemma quiet_step_refl w : quiet_step w w.
Proof. exists []. by rw app_nil_r. Qed.

Lemma quiet_step_trans w1 w2 w3 :
  quiet_step w1 w2 -> quiet_step w2 w3 -> quiet_step w1 w3.
Proof.
  intros (e1 & H1 & Q1 & R1) (e2 & H2 & Q2 & R2).
  exists (e1 ++ e2). rw H2 H1 app_assoc.
  split; [done|]. split; [by apply Forall_app | auto].
Qed.

Lemma quiet_ret {A} (a : A) : quiet (ret a).
Proof. intros w r w' [= <- <-]. apply quiet_step_refl. Qed.

Lemma quiet_raise {A} e : quiet (@raise A e).
Proof. intros w r w' [= <- <-]. apply quiet_step_refl. Qed.

Lemma quiet_bind {A B} (m : M A) (f : A -> M B) :
  quiet m -> (forall a, quiet (f a)) -> quiet (bind m f).
Proof.
  intros Hm Hf w r w'. unfold bind.
  destruct (m w) as [[a|e] w1] eqn:E.
  - intros H. eapply quiet_step_trans; [by eapply Hm | by eapply Hf].
  - intros [= <- <-]. by eapply Hm.
Qed.

Lemma quiet_try_except {A} (m : M A) (h : exn -> M A) :
  quiet m -> (forall e, quiet (h e)) -> quiet (try_except m h).
Proof.
  intros Hm Hh w r w'. unfold try_except.
  destruct (m w) as [[a|e] w1] eqn:E.
  - intros [= <- <-]. by eapply Hm.
  - intros H. eapply quiet_step_trans; [by eapply Hm | by eapply Hh].
Qed.

Lemma quiet_emit e : is_quiet e = true -> quiet (emit e).
Proof.
  intros He w r w' [= <- <-]. exists [e].
  split; [done|]. split; [by constructor | done].
Qed.

Lemma quiet_log l m : quiet (log l m).
Proof. by apply quiet_emit. Qed.

Lemma quiet_get_redis_client : quiet get_redis_client.
Proof. intros w r w' [= <- <-]. apply quiet_step_refl. Qed.

Lemma quiet_set_store st : quiet (set_store st).
Proof.
  intros w r w' [= <- <-]. exists []. simpl. rw app_nil_r.
  split; [done|]. split; [done | by eexists].
Qed.

Lemma quiet_sdk_call {D} e (r : api_result D) :
  is_quiet e = true -> quiet (sdk_call e r).
Proof.
  intros He. apply quiet_bind; [by apply quiet_emit|].
  intros _. destruct r; [apply quiet_raise | apply quiet_ret].
Qed.

Lemma quiet_data_of {D} (resp : Response D) : quiet (data_of resp).
Proof. unfold data_of. destruct (data resp); [apply quiet_ret | apply quiet_raise]. Qed.

Lemma quiet_iter_of {T} (items : option (list T)) : quiet (iter_of items).
Proof. destruct items; [apply quiet_ret | apply quiet_raise]. Qed.

Create HintDb quiet.
#[local] Hint Resolve quiet_ret quiet_raise quiet_log quiet_get_redis_client
  quiet_set_store quiet_data_of quiet_iter_of : quiet.

(** Takes a computation apart along its binds, handlers and case
    distinctions. *)
Ltac quiet_steps :=
  repeat first
    [ progress cbv zeta
    | match goal with
      | |- quiet (bind _ _) => apply quiet_bind; [|intros ?]
      | |- quiet (try_except _ _) => apply quiet_try_except; [|intros ?]
      | |- quiet (sdk_call _ _) => apply quiet_sdk_call; reflexivity
      | |- quiet (match ?x with _ => _ end) => destruct x
      | |- quiet _ => solve [auto with quiet]
      end ].

Lemma quiet_find_target_table env tables : quiet (find_target_table env tables).
Proof.
  induction tables as [|t tables IH]; simpl; [apply quiet_raise|].
  destruct (bool_decide _); [|done].
  unfold redis_setex. quiet_steps.
Qed.

Lemma quiet_get_target_table_id env : quiet (get_target_table_id env).
Proof.
  unfold get_target_table_id. quiet_steps.
  apply quiet_find_target_table.
Qed.

Lemma quiet_check_duplicate_record env app_token tid phone wechat :
  quiet (check_duplicate_record env app_token tid phone wechat).
Proof. unfold check_duplicate_record. quiet_steps. Qed.

(** [create_customer_record] starts with the field-list request, so a
    handling that invoked it leaves that request in the trace. *)
Lemma get_table_fields_run env app_token tid w :
  exists schema evs,
    get_table_fields env app_token tid w
      = (Ok schema, add_events (EListFields app_token tid :: evs) w)
    /\ Forall (fun e => is_log e = true) evs.
Proof.
  unfold get_table_fields, try_except, sdk_call.
  unfold bind at 2. unfold emit at 1.
  destruct (api_list_fields env app_token tid) as [|resp]; cbv beta iota.
  - eexists _, [_]. unfold bind, raise, log, emit, ret.
    rw add_events_app. split; [done|]. by repeat constructor.
  - unfold bind at 1. unfold ret at 1. cbv beta iota.
    destruct (success resp); cbn [negb]; cbv beta iota.
    + destruct (bind (data_of resp) _ _) as [[schema|e] w1] eqn:E.
      * assert (w1 = add_events [EListFields app_token tid] w) as ->.
        { revert E. unfold bind, data_of.
          destruct (data resp) as [[items|]|]; try done.
          cbn. generalize (@nil FieldInfo).
          induction items as [|it items IH]; intros acc; cbn.
          - by intros [= _ <-].
          - unfold bind, field_info_of.
            destruct (item_property it); cbn; try done; apply IH. }
        exists schema, []. by split.
      * assert (w1 = add_events [EListFields app_token tid] w) as ->.
        { revert E. unfold bind, data_of.
          destruct (data resp) as [[items|]|]; cbn; try by intros [= _ <-].
          generalize (@nil FieldInfo).
          induction items as [|it items IH]; intros acc; cbn; [done|].
          unfold bind, field_info_of.
          destruct (item_property it); cbn;
            try (by intros [= _ <-]); apply IH. }
        eexists _, [_]. unfold bind, log, emit, ret.
        rw add_events_app. split; [done|]. by repeat constructor.
    + eexists _, [_]. unfold bind, log, emit, ret.
      rw add_events_app. split; [done|]. by repeat constructor.
Qed.

Lemma create_customer_record_run env app_token tid fields_data w schema w1 :
  get_table_fields env app_token tid w = (Ok schema, w1) ->
  exists b evs,
    create_customer_record env app_token tid fields_data w
      = (Ok b,
         add_events
           (ECreate app_token tid (build_fields env schema fields_data) :: evs)
           w1)
    /\ Forall (fun e => is_log e = true) evs.
Proof.
  intros Hfields. unfold create_customer_record.
  set (fields := build_fields env schema fields_data).
  destruct (api_create env app_token tid fields) as [|resp] eqn:Hcreate.
  - eexists _, [_]. split; [|shelve].
    erewrite try_except_run; cycle 1.
    { erewrite bind_run; [|exact Hfields]. cbv beta iota zeta.
      fold fields. unfold sdk_call. rw Hcreate.
      unfold bind, emit, raise. reflexivity. }
    cbv beta iota. unfold bind, log, emit, ret. by rw add_events_app.
  - destruct (success resp) eqn:Hs.
    + destruct (data resp) as [[record|]|] eqn:Hd.
      * eexists _, [_]. split; [|shelve].
        erewrite try_except_run; cycle 1.
        { erewrite bind_run; [|exact Hfields]. cbv beta iota zeta.
          fold fields. unfold sdk_call. rw Hcreate.
          unfold bind, emit, ret, data_of. rw Hs Hd. cbn.
          unfold log, emit. reflexivity. }
        cbv beta iota. by rw add_events_app.
      * eexists _, [_]. split; [|shelve].
        erewrite try_except_run; cycle 1.
        { erewrite bind_run; [|exact Hfields]. cbv beta iota zeta.
          fold fields. unfold sdk_call. rw Hcreate.
          unfold bind, emit, ret, data_of. rw Hs Hd. cbn.
          unfold raise. reflexivity. }
        cbv beta iota. unfold bind, log, emit, ret. by rw add_events_app.
      * eexists _, [_]. split; [|shelve].
        erewrite try_except_run; cycle 1.
        { erewrite bind_run; [|exact Hfields]. cbv beta iota zeta.
          fold fields. unfold sdk_call. rw Hcreate.
          unfold bind, emit, ret, data_of. rw Hs Hd. cbn.
          unfold raise. reflexivity. }
        cbv beta iota. unfold bind, log, emit, ret. by rw add_events_app.
    + eexists _, [_]. split; [|shelve].
      erewrite try_except_run; cycle 1.
      { erewrite bind_run; [|exact Hfields]. cbv beta iota zeta.
        fold fields. unfold sdk_call. rw Hcreate.
        unfold bind, emit, ret. rw Hs. cbn. unfold log, emit. reflexivity. }
      cbv beta iota. by rw add_events_app.
  Unshelve. all: by repeat constructor.
Qed.

(** Every run of [create_customer_record] returns normally and leaves
    its two requests in the trace. *)
Lemma create_customer_record_requests env app_token tid fields_data w :
  exists b fields evs1 evs2,
    create_customer_record env app_token tid fields_data w
      = (Ok b,
         add_events (EListFields app_token tid :: evs1
                     ++ ECreate app_token tid fields :: evs2) w).
Proof.
  destruct (get_table_fields_run env app_token tid w)
    as (schema & evs1 & Hfields & _).
  destruct (create_customer_record_run env app_token tid fields_data w _ _ Hfields)
    as (b & evs2 & Hrun & _).
  exists b, (build_fields env schema fields_data), evs1, evs2.
  by rw Hrun add_events_app.
Qed.

(** A match that [check_duplicate_record] reports always comes with the
    id of a record. *)
Lemma check_duplicate_match_id env app_token tid phone wechat w i w' :
  check_duplicate_record env app_token tid phone wechat w
    = (Ok (true, i), w') ->
  exists id, i = Some id.
Proof.
  unfold check_duplicate_record, try_except, sdk_call, data_of, bind, log, emit,
    raise, ret.
  destruct phone as [[|p0 p]|], wechat as [[|w0 q]|]; cbn [truthy app];
    try (intros H; discriminate H);
    (destruct (api_search env _ _ _ _) as [|resp];
     [|destruct (success resp); cbn [negb];
       [destruct (data resp) as [[[|r rs]|]|]|]]);
    intros H; try discriminate H; inversion H; by eexists.
Qed.

(** C1.  A user has a session with step "waiting_info" and sends a
    direct message from which the extractor gets a phone or a social
    handle; the table is located and [check_duplicate_record] reports a
    match.  Then the match carries the id of a record, and the handler
    answers "Duplicate found"; exactly one message went out, to the chat
    of the session, and its text is "数据与客户ID：" followed by that id
    and "重复", so it cites the matched id; no request of
    [create_customer_record] (field list, record creation) was issued,
    so it was not invoked; and the user's session is gone from Redis. *)
Theorem duplicate_reply_ends_session env event w st ci tid dup_id w1 w2 :
  ev_chat_type event = py "p2p" ->
  get_user_state env (ev_user_id event) w = (Ok (Some st), w) ->
  step st = waiting_info ->
  parse_customer_info (strip (ev_text event)) = Ok ci ->
  truthy_opt (ci !! lbl_phone) = true \/ truthy_opt (ci !! lbl_wechat) = true ->
  get_target_table_id env (add_events [ELog INFO LMessageReceived] w)
    = (Ok tid, w1) ->
  check_duplicate_record env (bp_app_token (parse_base_url env)) tid
    (ci !! lbl_phone) (ci !! lbl_wechat) w1 = (Ok (true, dup_id), w2) ->
  exists w' evs,
    handle_message_event env event w
      = (Ok (JMsg (py "Duplicate found"), 200%Z), w') /\
    trace w' = trace w ++ evs /\
    (exists id,
       dup_id = Some id /\
       sent_messages evs
       = [(chat_id st, u "数据与客户ID：" ++ id ++ u "重复")]) /\
    Forall (fun e => is_writer_request e = false) evs /\
    (exists store', redis_client w' = Some store' /\
                    store' !! user_state_key (ev_user_id event) = None) /\
    fst (get_user_state env (ev_user_id event) w') = Ok None.
Proof.
  intros Hp2p Hsess Hstep Hparse Hkey Htid Hdup.
  destruct (check_duplicate_match_id _ _ _ _ _ _ _ _ Hdup) as [id Hid].
  set (w0 := add_events [ELog INFO LMessageReceived] w) in *.
  destruct (get_user_state_frame _ _ _ _ _ [ELog INFO LMessageReceived] Hsess)
    as [_ Hsess']. fold w0 in Hsess'.
  destruct (get_user_state_Some _ _ _ _ Hsess) as [store Hstore].
  assert (Hq : quiet_step w0 w2).
  { eapply quiet_step_trans.
    - by eapply quiet_get_target_table_id.
    - by eapply quiet_check_duplicate_record. }
  destruct Hq as (evs12 & Htrace & Hquiet & Hredis).
  destruct Hredis as [store2 Hstore2]; [by rw /w0 /= Hstore|].
  destruct (send_message_run env (chat_id st) (msg_duplicate dup_id) w2)
    as (b & logs & Hsend & Hlogs).
  assert (Hne : ci <> ∅).
  { intros ->. rw !lookup_empty in Hkey. by destruct Hkey. }
  assert (Hcond : negb (truthy_opt (ci !! lbl_phone))
                  && negb (truthy_opt (ci !! lbl_wechat)) = false).
  { destruct Hkey as [-> | ->]; [done | by rw andb_false_r]. }
  set (key := user_state_key (ev_user_id event)).
  exists {| redis_client := Some (delete key store2);
            trace := trace w ++ ELog INFO LMessageReceived :: evs12
                       ++ ESend (chat_id st) (msg_duplicate dup_id) (py "text")
                       :: logs |}.
  eexists. split; [|split; [reflexivity|split; [|split; [|split]]]].
  - unfold handle_message_event.
    erewrite try_except_run; cycle 1.
    { erewrite bind_run; [|apply log_run]. cbv beta iota. fold w0.
      rw Hp2p (bool_decide_eq_false_2 _ p2p_not_group).
      rw bool_decide_eq_true_2 //. cbn [andb].
      erewrite bind_run; [|exact Hsess']. cbv beta iota.
      rw Hstep bool_decide_eq_true_2 //.
      unfold lift at 1. erewrite bind_run; [|by rw Hparse]. cbv beta iota.
      rw bool_decide_eq_true_2 //. cbv zeta. rw Hcond.
      erewrite bind_run; [|exact Htid]. cbv beta iota.
      erewrite bind_run; [|exact Hdup]. cbv beta iota. cbn [fst snd].
      erewrite bind_run; [|exact Hsend]. cbv beta iota.
      erewrite bind_run; [|apply delete_user_state_run]. reflexivity. }
    cbv beta iota. cbn [add_events redis_client trace]. rw Hstore2.
    f_equal. f_equal. rw Htrace /w0 /= -!app_assoc. done.
  - exists id. split; [exact Hid|].
    change (u "数据与客户ID：" ++ id ++ u "重复") with (msg_duplicate (Some id)).
    rw Hid. cbn [sent_messages]. rw sent_messages_app.
    rw (sent_messages_quiet evs12) //. cbn [app sent_messages]. f_equal.
    by apply sent_messages_quiet, log_quiet.
  - constructor; [done|]. apply Forall_app. split.
    + by apply quiet_not_writer.
    + constructor; [done|]. by apply quiet_not_writer, log_quiet.
  - eexists. split; [reflexivity|]. apply lookup_delete_eq.
  - unfold get_user_state, bind, get_redis_client. cbn [redis_client].
    unfold redis_get. fold key. by rw lookup_delete_eq.
Qed.

Lemma duplicate_reply_ends_session_witness :
  exists w' evs,
    handle_message_event demo_env demo_reply_phone demo_world
      = (Ok (JMsg (py "Duplicate found"), 200%Z), w') /\
    trace w' = trace demo_world ++ evs /\
    (exists id,
       Some (py "rec9") = Some id /\
       sent_messages evs
       = [(py "oc_1", u "数据与客户ID：" ++ id ++ u "重复")]) /\
    Forall (fun e => is_writer_request e = false) evs /\
    (exists store', redis_client w' = Some store' /\
                    store' !! user_state_key (Some (py "ou_1")) = None) /\
    fst (get_user_state demo_env (Some (py "ou_1")) w') = Ok None.
Proof.
  apply (duplicate_reply_ends_session demo_env demo_reply_phone demo_world
           demo_session {[ lbl_phone := py "138" ]} (py "tbl1")
           (Some (py "rec9"))
           (snd (get_target_table_id demo_env
                   (add_events [ELog INFO LMessageReceived] demo_world)))
           (snd (check_duplicate_record demo_env
                   (bp_app_token (parse_base_url demo_env)) (py "tbl1")
                   (Some (py "138")) None
                   (snd (get_target_table_id demo_env
                           (add_events [ELog INFO LMessageReceived]
                              demo_world))))));
    try reflexivity.
  left. reflexivity.
Defined.

(** ** Record Writer *)

Lemma create_requests_app evs1 evs2 :
  create_requests (evs1 ++ evs2) = create_requests evs1 ++ create_requests evs2.
Proof.
  induction evs1 as [|e evs1 IH]; [done|]. destruct e; simpl; by rw ?IH.
Qed.

Lemma create_requests_logs evs :
  Forall (fun e => is_log e = true) evs -> create_requests evs = [].
Proof. induction 1 as [|e evs He _ IH]; [done|]. by destruct e. Qed.

Lemma find_option_Some options v i :
  find_option options (Some v) = Some i ->
  exists o, o ∈ options /\ opt_name o = v /\ opt_id o = i.
Proof.
  induction options as [|o os IH]; simpl; [done|].
  case_bool_decide as Ho.
  - intros [= <-]. exists o. split; [by left|]. split; congruence.
  - intros (o' & Hin & Ho') %IH. exists o'. split; [by right | done].
Qed.

Lemma find_option_None options v o :
  find_option options (Some v) = None -> o ∈ options -> opt_name o <> v.
Proof.
  induction options as [|o1 os IH]; simpl; intros Hf Hin.
  - by apply elem_of_nil in Hin.
  - case_bool_decide as Ho; [done|].
    apply elem_of_cons in Hin as [->|Hin]; [congruence | by apply IH].
Qed.

Lemma option_id_Some schema fld v i :
  get_single_select_option_id schema fld (Some v) = Some i ->
  exists o, defines_option schema fld v o /\ opt_id o = i.
Proof.
  induction schema as [|f fs IH]; simpl; [done|].
  destruct (bool_decide (field_name f = fld) && (type f =? 3)%Z) eqn:Hf.
  - apply andb_true_iff in Hf as [Hn%bool_decide_eq_true Ht%Z.eqb_eq].
    destruct (find_option _ _) as [j|] eqn:Hj.
    + intros [= <-]. apply find_option_Some in Hj as (o & Hin & Ho & Hid).
      exists o. split; [|done]. exists f. split; [by left | done].
    + intros (o & (f' & Hin & Hd) & Hid) %IH.
      exists o. split; [|done]. exists f'. split; [by right | done].
  - intros (o & (f' & Hin & Hd) & Hid) %IH.
    exists o. split; [|done]. exists f'. split; [by right | done].
Qed.

Lemma option_id_None schema fld v o :
  get_single_select_option_id schema fld (Some v) = None ->
  ~ defines_option schema fld v o.
Proof.
  induction schema as [|f fs IH]; simpl; intros Hg (f' & Hin & Hn & Ht & Ho & Hv).
  - by apply elem_of_nil in Hin.
  - apply elem_of_cons in Hin as [->|Hin].
    + rw Hn Ht bool_decide_eq_true_2 // in Hg. cbn in Hg.
      destruct (find_option _ _) eqn:Hj; [done|].
      by apply (find_option_None _ _ _ Hj Ho).
    + apply IH; [|by exists f'].
      destruct (bool_decide _ && _); [|done].
      by destruct (find_option _ _).
Qed.

Lemma copy_other_enumerated fields_data fields fld :
  fld ∈ enumerated ->
  map_fold copy_other fields fields_data !! fld = fields !! fld.
Proof.
  intros Hfld.
  apply (map_fold_weak_ind (fun r _ => r !! fld = fields !! fld)); [done|].
  intros k x m r _ IH. unfold copy_other.
  destruct (bool_decide (k ∉ enumerated) && truthy_opt x) eqn:Hk; [|done].
  apply andb_true_iff in Hk as [Hk%bool_decide_eq_true _].
  rw lookup_insert_ne //. by intros ->.
Qed.

(** What [create_customer_record] writes for an enumerated field that
    the intake mapping holds. *)
Lemma build_fields_enumerated env schema fields_data fld text :
  fld ∈ enumerated ->
  fields_data !! fld = Some text ->
  build_fields env schema fields_data !! fld
  = Some (if truthy_opt (get_single_select_option_id schema fld text)
          then get_single_select_option_id schema fld text else text).
Proof.
  intros Hfld Hdata. unfold build_fields.
  assert (Hdate : lbl_entry_date <> fld).
  { intros <-. unfold enumerated in Hfld.
    repeat (apply elem_of_cons in Hfld as [Hfld|Hfld]; [discriminate Hfld|]).
    by apply elem_of_nil in Hfld. }
  set (fields := foldl _ _ _).
  assert (Hfields : fields !! fld
    = Some (if truthy_opt (get_single_select_option_id schema fld text)
            then get_single_select_option_id schema fld text else text)).
  { unfold fields, enumerated in *. cbn [foldl].
    apply elem_of_cons in Hfld as [->|Hfld].
    - unfold fill_enumerated at 1.
      destruct (fields_data !! lbl_source).
      + destruct (truthy_opt _); rw lookup_insert_ne //;
          unfold fill_enumerated; rw Hdata;
          destruct (truthy_opt _); by rw lookup_insert_eq.
      + unfold fill_enumerated; rw Hdata;
          destruct (truthy_opt _); by rw lookup_insert_eq.
    - apply elem_of_cons in Hfld as [->|Hfld]; [|by apply elem_of_nil in Hfld].
      unfold fill_enumerated at 1. rw Hdata.
      destruct (truthy_opt _); by rw lookup_insert_eq. }
  destruct (map_fold copy_other fields fields_data !! lbl_entry_date);
    rw ?lookup_insert_ne // copy_other_enumerated //.
Qed.

(** C7, as amended.  The intake mapping holds the text [v] for an
    enumerated field ("渠道" or "来源").  [create_customer_record]
    issues exactly one create request.  If the fetched schema defines,
    for that single-select field, an option with text [v], and every
    such option has a non-empty id, the request carries the id of such
    an option for the field; if the schema defines no such option, the
    request carries [v] itself.  Neither case raises. *)
Theorem record_writer_enumerated env app_token tid fields_data w fld v schema :
  fld ∈ enumerated ->
  fields_data !! fld = Some (Some v) ->
  fst (get_table_fields env app_token tid w) = Ok schema ->
  exists b w' fields,
    create_customer_record env app_token tid fields_data w = (Ok b, w') /\
    create_requests (events_since w w') = [fields] /\
    ((exists o, defines_option schema fld v o) ->
     (forall o, defines_option schema fld v o -> opt_id o <> []) ->
     exists o, defines_option schema fld v o /\
               fields !! fld = Some (Some (opt_id o))) /\
    ((forall o, ~ defines_option schema fld v o) ->
     fields !! fld = Some (Some v)).
Proof.
  intros Hfld Hdata Hschema.
  destruct (get_table_fields_run env app_token tid w)
    as (schema' & evs1 & Hfields & Hlogs1).
  rw Hfields in Hschema. injection Hschema as ->.
  destruct (create_customer_record_run env app_token tid fields_data w _ _ Hfields)
    as (b & evs2 & Hrun & Hlogs2).
  rw add_events_app in Hrun.
  eexists b, _, (build_fields env schema fields_data).
  split; [exact Hrun|]. split.
  { erewrite events_since_app; [|reflexivity]. cbn [app create_requests].
    by rw create_requests_app /= !create_requests_logs. }
  rw (build_fields_enumerated env schema fields_data fld (Some v)) //.
  destruct (get_single_select_option_id schema fld (Some v)) as [i|] eqn:Hid.
  - apply option_id_Some in Hid as (o & Hdef & <-). split.
    + intros _ Hids. exists o. split; [done|].
      cbn [truthy_opt]. specialize (Hids o Hdef).
      by destruct (opt_id o).
    + intros Hnone. by destruct (Hnone o).
  - split; [|done]. intros [o Hdef] _.
    by destruct (option_id_None _ _ _ o Hid).
Qed.

Lemma record_writer_enumerated_witness :
  exists b w' fields,
    create_customer_record demo_env (py "app") (py "tbl1")
      {[ lbl_channel := Some (u "推荐") ]} demo_world = (Ok b, w') /\
    create_requests (events_since demo_world w') = [fields] /\
    ((exists o, defines_option demo_field_infos lbl_channel (u "推荐") o) ->
     (forall o, defines_option demo_field_infos lbl_channel (u "推荐") o ->
                opt_id o <> []) ->
     exists o, defines_option demo_field_infos lbl_channel (u "推荐") o /\
               fields !! lbl_channel = Some (Some (opt_id o))) /\
    ((forall o, ~ defines_option demo_field_infos lbl_channel (u "推荐") o) ->
     fields !! lbl_channel = Some (Some (u "推荐"))).
Proof.
  apply (record_writer_enumerated demo_env (py "app") (py "tbl1")
           {[ lbl_channel := Some (u "推荐") ]} demo_world lbl_channel
           (u "推荐") demo_field_infos).
  - by left.
  - vm_compute. reflexivity.
  - vm_compute. reflexivity.
Defined.

(** The two cases on the demo schema: "推荐" is written as "opt_3",
    "未知" is written as it is. *)
Example record_writer_on_demo_schema :
  build_fields demo_env demo_field_infos {[ lbl_channel := Some (u "推荐") ]}
    !! lbl_channel = Some (Some (py "opt_3")) /\
  build_fields demo_env demo_field_infos {[ lbl_channel := Some (u "未知") ]}
    !! lbl_channel = Some (Some (u "未知")).
Proof. split; vm_compute; reflexivity. Qed.

(** C7, counterexample.  The schema defines the option "推荐" with the
    empty id; the test [if option_id:] then takes the fallback and the
    request carries the text "推荐", not the id. *)
Lemma blank_option_id_not_written : ~ writes_id_of_any_match.
Proof.
  intros H.
  specialize (H blank_id_env (py "app") (py "tbl1")
                {[ lbl_channel := Some (u "推荐") ]} demo_world lbl_channel
                (u "推荐") [blank_id_field]).
  destruct H as (fields & Hreq & Hsome & _);
    [by left | vm_compute; reflexivity | vm_compute; reflexivity |].
  assert (Hrun : create_requests
            (events_since demo_world
               (snd (create_customer_record blank_id_env (py "app") (py "tbl1")
                       {[ lbl_channel := Some (u "推荐") ]} demo_world)))
          = [build_fields blank_id_env [blank_id_field]
               {[ lbl_channel := Some (u "推荐") ]}])
    by (vm_compute; reflexivity).
  pose proof (f_equal (fun l : list (gmap pystr (option pystr)) =>
                         match l with
                         | x :: _ => x !! lbl_channel
                         | [] => None
                         end) (eq_trans (eq_sym Hrun) Hreq)) as Hfields.
  cbv beta iota in Hfields.
  destruct Hsome as (o & (f & Hf & _ & _ & Ho & _) & Hlook).
  { exists blank_id_option, blank_id_field.
    split; [by left|]. repeat split. by left. }
  apply list_elem_of_singleton in Hf as ->.
  apply list_elem_of_singleton in Ho as ->.
  assert (Hval : build_fields blank_id_env [blank_id_field]
                   {[ lbl_channel := Some (u "推荐") ]} !! lbl_channel
                 = Some (Some (u "推荐"))) by (vm_compute; reflexivity).
  pose proof (eq_trans (eq_sym Hval) (eq_trans Hfields Hlook)) as Hbad.
  vm_compute in Hbad. discriminate Hbad.
Qed.

(** ** Table Locator *)

Lemma find_target_table_found env tables w :
  (exists t, t ∈ tables /\ table_name t = TARGET_TABLE_NAME env) ->
  exists t, t ∈ tables /\ table_name t = TARGET_TABLE_NAME env /\
            find_target_table env tables w = (Ok (table_id t), cache_table t w).
Proof.
  induction tables as [|t0 tables IH]; intros (t & Hin & Hname).
  - by apply elem_of_nil in Hin.
  - cbn [find_target_table]. case_bool_decide as H0.
    + exists t0. split; [by left|]. split; [done|].
      unfold bind, get_redis_client, cache_table, redis_setex, set_store, ret.
      by destruct (redis_client w).
    + apply elem_of_cons in Hin as [->|Hin]; [done|].
      destruct IH as (t' & Hin' & Hname' & Hrun); [by exists t|].
      exists t'. split; [by right | done].
Qed.

Lemma find_target_table_missing env tables w :
  (forall t, t ∈ tables -> table_name t <> TARGET_TABLE_NAME env) ->
  find_target_table env tables w
  = (Raise (TableNotFound (TARGET_TABLE_NAME env)), w).
Proof.
  induction tables as [|t0 tables IH]; intros Hnone; [done|].
  cbn [find_target_table]. rw bool_decide_eq_false_2.
  - apply Hnone. by left.
  - apply IH. intros t Hin. apply Hnone. by right.
Qed.

Lemma first_named_found tables :
  (exists t, t ∈ tables /\ table_name t = MainPy.target_name) ->
  exists t, t ∈ tables /\ table_name t = MainPy.target_name /\
            MainPy.first_named tables = Some (table_id t).
Proof.
  induction tables as [|t0 tables IH]; intros (t & Hin & Hname).
  - by apply elem_of_nil in Hin.
  - cbn [MainPy.first_named]. case_bool_decide as H0.
    + exists t0. split; [by left | done].
    + apply elem_of_cons in Hin as [->|Hin]; [done|].
      destruct IH as (t' & Hin' & Hname' & Hrun); [by exists t|].
      exists t'. split; [by right | done].
Qed.

Lemma first_named_missing tables :
  (forall t, t ∈ tables -> table_name t <> MainPy.target_name) ->
  MainPy.first_named tables = None.
Proof.
  induction tables as [|t0 tables IH]; intros Hnone; [done|].
  cbn [MainPy.first_named]. rw bool_decide_eq_false_2.
  - apply Hnone. by left.
  - apply IH. intros t Hin. apply Hnone. by right.
Qed.

Lemma get_target_table_id_lookup env w tables :
  cached_table_id (redis_client w) = None ->
  lists_tables env (bp_app_token (parse_base_url env)) tables ->
  get_target_table_id env w
  = match find_target_table env tables
            (add_events [EListTables (bp_app_token (parse_base_url env))] w) with
    | (Ok tid, w') => (Ok tid, w')
    | (Raise e, w') =>
      (Raise e, add_events [ELog ERROR (LGetTableIdFailed e)] w')
    end.
Proof.
  intros Hmiss [m Hlist]. unfold get_target_table_id.
  erewrite bind_run; [|reflexivity]. cbv beta iota. rw Hmiss.
  unfold try_except, sdk_call. cbv zeta. rw Hlist.
  unfold bind at 1. unfold bind at 1. unfold emit at 1. cbv beta iota.
  unfold ret at 1. cbn [success negb msg data].
  unfold bind at 1. unfold data_of. cbn [data]. unfold ret at 1.
  unfold bind at 1. unfold iter_of. unfold ret at 1.
  destruct (find_target_table env tables _) as [[tid|e] w']; [done|].
  reflexivity.
Qed.

Lemma main_parse_base_url_lookup env token url app_token m tables w :
  query_first (url_query url) (py "table") = None ->
  resolves_app_token env token url app_token ->
  http_list_tables env token app_token = HttpJson 0 m (Some tables) ->
  exists evs,
    MainPy.parse_base_url env token url w
    = (match MainPy.first_named tables with
       | Some tid =>
         Ok {| bp_app_token := app_token; bp_table_id := Some tid;
               bp_view_id := query_first (url_query url) (py "view") |}
       | None => Raise TableIdUnresolved
       end,
       add_events (evs ++ [EHttpListTables token app_token]) w).
Proof.
  intros Hq Hres Hlist. unfold MainPy.parse_base_url. cbv zeta. rw Hq.
  unfold resolves_app_token in Hres. cbv zeta in Hres.
  destruct (contains (py "/wiki/") (url_path url)).
  - destruct Hres as (m' & node & Hnode & ->).
    exists [EHttpWikiNode token (List.last (split_on slash (url_path url)) [])].
    unfold MainPy.get_wiki_node_info, MainPy.list_bitable_tables.
    rw Hnode. unfold bind, emit, ret. cbn [Z.eqb negb]. rw Hlist.
    cbn [Z.eqb negb]. rw add_events_app.
    by destruct (MainPy.first_named tables).
  - subst app_token. exists [].
    unfold MainPy.list_bitable_tables. unfold bind, emit, ret.
    rw Hlist. cbn [Z.eqb negb app].
    by destruct (MainPy.first_named tables).
Qed.

(** C8, as amended.  In feishu_bot.py, when no table id is cached (no
    Redis client, or no non-empty value under "target_table_id") and
    the list of tables of the app token is fetched: if a table has
    exactly the configured target name, [get_target_table_id] returns
    the id of such a table (the first in list order) without raising,
    and caches it for 3600 seconds; if none has, it raises the
    table-not-found error.  In main.py, for a URL without a [table]
    parameter whose table list is fetched, [parse_base_url] does the
    same with the name "⏰客户管理表": it returns the id of a table of
    that name, or raises when there is none.  In both the list request
    for the app token is the request that was issued. *)
Theorem table_locator_by_name env :
  (forall w tables,
     cached_table_id (redis_client w) = None ->
     lists_tables env (bp_app_token (parse_base_url env)) tables ->
     ((exists t, t ∈ tables /\ table_name t = TARGET_TABLE_NAME env) ->
      exists t, t ∈ tables /\ table_name t = TARGET_TABLE_NAME env /\
        get_target_table_id env w
        = (Ok (table_id t),
           cache_table t
             (add_events [EListTables (bp_app_token (parse_base_url env))] w))) /\
     ((forall t, t ∈ tables -> table_name t <> TARGET_TABLE_NAME env) ->
      get_target_table_id env w
      = (Raise (TableNotFound (TARGET_TABLE_NAME env)),
         add_events
           [EListTables (bp_app_token (parse_base_url env));
            ELog ERROR (LGetTableIdFailed (TableNotFound (TARGET_TABLE_NAME env)))]
           w))) /\
  (forall token url app_token m tables w,
     query_first (url_query url) (py "table") = None ->
     resolves_app_token env token url app_token ->
     http_list_tables env token app_token = HttpJson 0 m (Some tables) ->
     ((exists t, t ∈ tables /\ table_name t = MainPy.target_name) ->
      exists t evs, t ∈ tables /\ table_name t = MainPy.target_name /\
        MainPy.parse_base_url env token url w
        = (Ok {| bp_app_token := app_token; bp_table_id := Some (table_id t);
                 bp_view_id := query_first (url_query url) (py "view") |},
           add_events (evs ++ [EHttpListTables token app_token]) w)) /\
     ((forall t, t ∈ tables -> table_name t <> MainPy.target_name) ->
      exists evs,
        MainPy.parse_base_url env token url w
        = (Raise TableIdUnresolved,
           add_events (evs ++ [EHttpListTables token app_token]) w))).
Proof.
  split.
  - intros w tables Hmiss Hlist. rw (get_target_table_id_lookup env w tables) //.
    split.
    + intros Hex.
      destruct (find_target_table_found env tables
                  (add_events [EListTables (bp_app_token (parse_base_url env))] w)
                  Hex) as (t & Hin & Hname & Hrun).
      exists t. by rw Hrun.
    + intros Hnone. rw find_target_table_missing //. by rw add_events_app.
  - intros token url app_token m tables w Hq Hres Hlist.
    destruct (main_parse_base_url_lookup env token url app_token m tables w
                Hq Hres Hlist) as [evs Hrun].
    split.
    + intros Hex.
      destruct (first_named_found tables Hex) as (t & Hin & Hname & Hfirst).
      exists t, evs. by rw Hrun Hfirst.
    + intros Hnone. exists evs. by rw Hrun first_named_missing.
Qed.

Lemma table_locator_by_name_witness :
  (exists t, t ∈ demo_tables /\ table_name t = MainPy.target_name /\
     get_target_table_id demo_env demo_world
     = (Ok (table_id t),
        cache_table t
          (add_events [EListTables (bp_app_token (parse_base_url demo_env))]
             demo_world))) /\
  (exists t evs,
     t ∈ [ {| table_name := MainPy.target_name; table_id := py "tbl1" |} ] /\
     table_name t = MainPy.target_name /\
     MainPy.parse_base_url demo_env (py "t-token") demo_url demo_world
     = (Ok {| bp_app_token := py "PzITbIyJfaB03BsqVtIcrjtznFf";
              bp_table_id := Some (table_id t);
              bp_view_id := query_first (url_query demo_url) (py "view") |},
        add_events (evs ++ [EHttpListTables (py "t-token")
                              (py "PzITbIyJfaB03BsqVtIcrjtznFf")])
          demo_world)).
Proof.
  split.
  - apply (proj1 (table_locator_by_name demo_env) demo_world demo_tables).
    + vm_compute. reflexivity.
    + eexists. reflexivity.
    + eexists. split; [by right; left | reflexivity].
  - apply (proj2 (table_locator_by_name demo_env) (py "t-token") demo_url
             (py "PzITbIyJfaB03BsqVtIcrjtznFf") (py "success")
             [ {| table_name := MainPy.target_name; table_id := py "tbl1" |} ]
             demo_world).
    + vm_compute. reflexivity.
    + vm_compute. reflexivity.
    + reflexivity.
    + eexists. split; [by left | reflexivity].
Defined.

(** C8, counterexample.  With a table id in the cache,
    [get_target_table_id] returns it without fetching the list: no
    table has the target name any more, and the call still succeeds. *)
Lemma cached_table_id_skips_lookup : ~ locator_always_looks_up.
Proof.
  intros H.
  specialize (H renamed_env cached_world
                [ {| table_name := py "other"; table_id := py "tbl0" |} ]).
  destruct H as [_ H]; [vm_compute; reflexivity | eexists; reflexivity |].
  destruct H as [_ H].
  - intros t Ht. apply list_elem_of_singleton in Ht as ->. discriminate.
  - vm_compute in H. discriminate H.
Qed.

(** * Further properties of the code *)

(** ** Field Extractor: every match, and values on a later line *)

Lemma star_loop_reaches
    (m : pystr -> option pystr -> kont -> option match_obj) :
  (forall s g k res, m s g k = Some res -> exists s' g', k s' g' = Some res) ->
  forall n k s g res,
    star_loop m k n s g = Some res -> exists s' g', k s' g' = Some res.
Proof.
  intros Hm n k. induction n as [|n IH]; intros s g res; cbn [star_loop].
  - eauto.
  - destruct (m s g _) as [res'|] eqn:E.
    + intros [= <-]. apply Hm in E as (s' & g' & E).
      destruct (length s' <? length s)%nat; [by eapply IH | done].
    + eauto.
Qed.

(** A match of any pattern ends in its continuation. *)
Lemma rmatch_reaches r : forall s g k res,
  rmatch r s g k = Some res -> exists s' g', k s' g' = Some res.
Proof.
  induction r as [|a|r1 IH1 r2 IH2|r1 IH1|r1 IH1]; intros s g k res.
  - eauto.
  - rw rmatch_atom. destruct s as [|c s]; [done|].
    destruct (accepts a c); [eauto | done].
  - rw rmatch_seq. intros (s' & g' & H)%IH1. by eapply IH2.
  - rw rmatch_star. by apply star_loop_reaches.
  - rw rmatch_group. intros (s' & g' & H)%IH1. eauto.
Qed.

(** A match of a label pattern always has its group. *)
Lemma re_match_label_group lbl s m :
  re_match (label_pattern lbl) s = Some m -> exists v, m = Some v.
Proof.
  unfold re_match, label_pattern. rw rmatch_lit.
  destruct (strip_prefix lbl s) as [s1|]; [|done].
  rw !rcat_cons rmatch_seq.
  intros (s2 & g2 & H)%rmatch_reaches.
  rw rmatch_seq in H. apply rmatch_reaches in H as (s3 & g3 & H).
  rw rmatch_seq rmatch_group in H.
  apply rmatch_reaches in H as (s4 & g4 & H).
  cbn in H. injection H as <-. eauto.
Qed.

Lemma re_search_group lbl s m :
  re_search (label_pattern lbl) s = Some m -> exists v, m = Some v.
Proof.
  induction s as [|c s IH]; cbn [re_search];
    destruct (re_match (label_pattern lbl) _) as [m'|] eqn:E.
  - intros [= <-]. by eapply re_match_label_group.
  - done.
  - intros [= <-]. by eapply re_match_label_group.
  - apply IH.
Qed.

Lemma re_search_found lbl s m :
  re_search (label_pattern lbl) s = Some m -> contains lbl s = true.
Proof.
  intros H. destruct (contains lbl s) eqn:E; [done|].
  by rw re_search_absent in H.
Qed.

Lemma drop_while_app_stop (p : Z -> bool) (l : pystr) x :
  p x = false -> drop_while p (l ++ [x]) = drop_while p l ++ [x].
Proof.
  intros Hx. induction l as [|c l IH]; simpl; [by rw Hx|].
  by destruct (p c).
Qed.

(** Stripping a stripped string changes nothing. *)
Lemma strip_fixed (s : pystr) : strip (strip s) = strip s.
Proof.
  unfold strip, lstrip, rstrip.
  destruct (drop_while is_space s) as [|x t] eqn:E; [done|].
  pose proof (drop_while_head _ _ _ _ E) as Hx.
  cbn [rev]. rw (drop_while_app_stop is_space (rev t) x Hx).
  rw rev_app_distr. cbn [rev app drop_while]. rw Hx.
  cbn [rev]. rw rev_involutive.
  rw (drop_while_app_stop is_space _ x Hx) drop_while_idemp.
  by rw rev_app_distr.
Qed.

(** X1.  [parse_customer_info] never raises.  Every key of the mapping
    it returns is one of the four labels and occurs in the text, and
    every value is free of surrounding whitespace. *)
Theorem extractor_total text :
  exists ci,
    parse_customer_info text = Ok ci /\
    forall k v, ci !! k = Some v ->
      k ∈ labels /\ contains k text = true /\ strip v = v.
Proof.
  unfold parse_customer_info, patterns, labels. cbn [parse_fields].
  destruct (re_search (label_pattern lbl_channel) text) as [m1|] eqn:E1;
    [pose proof (re_search_found _ _ _ E1);
     destruct (re_search_group _ _ _ E1) as [g1 ->]|];
  (destruct (re_search (label_pattern lbl_source) text) as [m2|] eqn:E2;
    [pose proof (re_search_found _ _ _ E2);
     destruct (re_search_group _ _ _ E2) as [g2 ->]|]);
  (destruct (re_search (label_pattern lbl_phone) text) as [m3|] eqn:E3;
    [pose proof (re_search_found _ _ _ E3);
     destruct (re_search_group _ _ _ E3) as [g3 ->]|]);
  (destruct (re_search (label_pattern lbl_wechat) text) as [m4|] eqn:E4;
    [pose proof (re_search_found _ _ _ E4);
     destruct (re_search_group _ _ _ E4) as [g4 ->]|]);
  eexists; (split; [reflexivity|]); intros k v Hk;
  repeat (apply lookup_insert_Some in Hk as [[<- <-]|[_ Hk]];
          [split; [by repeat constructor | split; [done | apply strip_fixed]]|]);
  by rw lookup_empty in Hk.
Qed.

(** The tail [\s*(.+)] of a label pattern skips whitespace, line breaks
    included, up to the first character that is not whitespace. *)
Lemma rmatch_value_skip (ws body post : pystr) x :
  Forall (fun c => is_space c = true) ws ->
  is_space x = false ->
  newline ∉ x :: body ->
  (post = [] \/ exists t, post = newline :: t) ->
  rmatch (rcat [RStar (RAtom ASpace); RGroup (RPlus (RAtom ADot))])
         (ws ++ (x :: body) ++ post) None (fun _ g => Some g)
  = Some (Some (x :: body)).
Proof.
  intros Hws Hx Hnl Hpost.
  rw !rcat_cons rmatch_seq rmatch_star.
  apply star_atom_greedy; [done | done | | done].
  rw rmatch_seq rmatch_group. unfold RPlus. rw rmatch_seq rmatch_atom.
  cbn [app accepts].
  assert (negb (x =? newline)%Z = true) as ->.
  { apply negb_true_iff, Z.eqb_neq. intros ->. apply Hnl. by left. }
  rw rmatch_star.
  rw (star_atom_greedy ADot _ _ (Some (x :: body)) body post); try done.
  - apply Forall_forall. intros y Hy. simpl.
    apply negb_true_iff, Z.eqb_neq. intros ->. apply Hnl. by right.
  - destruct Hpost as [->|[t ->]]; done.
  - simpl. f_equal. f_equal.
    replace (S (length (body ++ post)) - length post)%nat
      with (length (x :: body)) by (rw length_app /=; lia).
    change (x :: body ++ post) with ((x :: body) ++ post).
    by rw take_app_length.
Qed.

(** X2.  After "电话" and its colon the extractor skips whitespace,
    line breaks included, and takes the rest of the line on which the
    first other character stands.  So in a text that names no other
    label, a "电话：" whose own line is blank gets the content of the
    next line that is not blank. *)
Theorem extractor_takes_next_line pre c ws x body post :
  c ∈ colons ->
  Forall (fun c => is_space c = true) ws ->
  is_space x = false ->
  newline ∉ x :: body ->
  (post = [] \/ exists t, post = newline :: t) ->
  contains lbl_phone pre = false ->
  (forall lbl, lbl ∈ [lbl_channel; lbl_source; lbl_wechat] ->
     contains lbl (pre ++ lbl_phone ++ c :: ws ++ (x :: body) ++ post) = false) ->
  parse_customer_info (pre ++ lbl_phone ++ c :: ws ++ (x :: body) ++ post)
  = Ok {[ lbl_phone := strip (x :: body) ]}.
Proof.
  intros Hc Hws Hx Hnl Hpost Hpre Hother.
  unfold parse_customer_info, patterns. cbn [parse_fields].
  rw (re_search_absent lbl_channel); [apply Hother; by repeat constructor|].
  rw (re_search_absent lbl_source); [apply Hother; by repeat constructor|].
  rw (re_search_absent lbl_wechat); [apply Hother; by repeat constructor|].
  assert (re_search (label_pattern lbl_phone)
            (pre ++ lbl_phone ++ c :: ws ++ (x :: body) ++ post)
          = Some (Some (x :: body))) as ->.
  { unfold lbl_phone in *. cbn [app]. rw re_search_skip //.
    cbn [re_search].
    change (30005%Z :: 35805%Z :: c :: ws ++ x :: body ++ post)
      with ([30005%Z; 35805%Z] ++ c :: ws ++ (x :: body) ++ post).
    unfold re_match, label_pattern. rw rmatch_lit strip_prefix_app.
    rw rcat_cons rmatch_seq rmatch_atom (accepts_colon _ Hc).
    by rw rmatch_value_skip. }
  by rw insert_empty.
Qed.

(** "电话：" on a line of its own, then "abc": the value is "abc". *)
Lemma extractor_takes_next_line_witness :
  parse_customer_info
    ([] ++ lbl_phone ++ 65306%Z :: [newline] ++ py "abc" ++ [])
  = Ok {[ lbl_phone := strip (py "abc") ]}.
Proof.
  apply (extractor_takes_next_line [] 65306%Z [newline] 97%Z (py "bc") []).
  - by repeat constructor.
  - by repeat constructor.
  - reflexivity.
  - solve_not_elem.
  - by left.
  - reflexivity.
  - intros lbl Hl.
    apply elem_of_cons in Hl as [->|Hl]; [reflexivity|].
    apply elem_of_cons in Hl as [->|Hl]; [reflexivity|].
    apply elem_of_cons in Hl as [->|Hl]; [reflexivity|].
    by apply elem_of_nil in Hl.
Defined.

(** ** Conversation State Machine: the other branches *)


(** A reply from which nothing is extracted. *)
Lemma handle_bad_format env event w st :
  ev_chat_type event = py "p2p" ->
  get_user_state env (ev_user_id event) w = (Ok (Some st), w) ->
  step st = waiting_info ->
  parse_customer_info (strip (ev_text event)) = Ok ∅ ->
  exists evs,
    handle_message_event env event w
      = (Ok (JMsg (py "Message processed"), 200%Z), add_events evs w) /\
    sent_messages evs = [(chat_id st, msg_bad_format)].
Proof.
  intros Hp2p Hsess Hstep Hparse.
  destruct (get_user_state_frame _ _ _ _ _ [ELog INFO LMessageReceived] Hsess)
    as [_ Hsess'].
  destruct (send_message_run env (chat_id st) msg_bad_format
              (add_events [ELog INFO LMessageReceived] w))
    as (b & evs & Hsend & Hlogs).
  rw add_events_app in Hsend.
  eexists. split.
  - unfold handle_message_event.
    erewrite try_except_run; cycle 1.
    { erewrite bind_run; [|apply log_run]. cbv beta iota.
      rw Hp2p (bool_decide_eq_false_2 _ p2p_not_group).
      rw bool_decide_eq_true_2 //. cbn [andb].
      erewrite bind_run; [|exact Hsess']. cbv beta iota.
      rw Hstep bool_decide_eq_true_2 //.
      unfold lift at 1. erewrite bind_run; [|by rw Hparse]. cbv beta iota.
      rw (bool_decide_eq_false_2 (∅ <> ∅)); [by intros H|].
      erewrite bind_run; [|exact Hsend]. reflexivity. }
    reflexivity.
  - cbn [app sent_messages]. f_equal. by apply sent_messages_quiet, log_quiet.
Qed.

(** X3.  A user has a session with step "waiting_info" and sends a
    direct message in which the extractor finds nothing.  Then exactly
    one message goes out, "格式不正确，请按模板提供信息", to the chat of
    the session, and Redis is what it was: the session stays. *)
Theorem unparsed_reply_reprompts env event w st :
  ev_chat_type event = py "p2p" ->
  get_user_state env (ev_user_id event) w = (Ok (Some st), w) ->
  step st = waiting_info ->
  parse_customer_info (strip (ev_text event)) = Ok ∅ ->
  exists w' evs,
    handle_message_event env event w
      = (Ok (JMsg (py "Message processed"), 200%Z), w') /\
    redis_client w' = redis_client w /\
    trace w' = trace w ++ evs /\
    sent_messages evs = [(chat_id st, msg_bad_format)].
Proof.
  intros Hp2p Hsess Hstep Hparse.
  destruct (handle_bad_format env event w st Hp2p Hsess Hstep Hparse)
    as (evs & Hrun & Hsent).
  by exists (add_events evs w), evs.
Qed.

Lemma unparsed_reply_reprompts_witness :
  exists w' evs,
    handle_message_event demo_env demo_reply_plain demo_world
      = (Ok (JMsg (py "Message processed"), 200%Z), w') /\
    redis_client w' = redis_client demo_world /\
    trace w' = trace demo_world ++ evs /\
    sent_messages evs = [(chat_id demo_session, msg_bad_format)].
Proof.
  apply (unparsed_reply_reprompts demo_env demo_reply_plain demo_world
           demo_session); vm_compute; reflexivity.
Defined.



Lemma group_not_p2p : py "group" <> py "p2p".
Proof. discriminate. Qed.

(** X5.  A group message without the mention, a message that is
    neither from a group nor direct, and a direct message from a user
    whose session is absent or in another step are all ignored: the
    handler answers "Message processed", sends nothing, issues no
    request and leaves Redis alone; only the log line is added. *)
Theorem ignored_message env event w :
  ignored env event w ->
  handle_message_event env event w
  = (Ok (JMsg (py "Message processed"), 200%Z),
     add_events [ELog INFO LMessageReceived] w).
Proof.
  intros Hcase. unfold handle_message_event.
  erewrite try_except_run; cycle 1.
  { erewrite bind_run; [|apply log_run]. cbv beta iota.
    destruct Hcase as [[Hg Hm]|[[Hg Hp]|[Hp Hs]]].
    - rw Hm andb_false_r Hg (bool_decide_eq_false_2 _ group_not_p2p).
      reflexivity.
    - rw (bool_decide_eq_false_2 _ Hg) (bool_decide_eq_false_2 _ Hp).
      reflexivity.
    - rw Hp (bool_decide_eq_false_2 _ p2p_not_group).
      rw bool_decide_eq_true_2 //. cbn [andb].
      destruct Hs as [Hs|(st & Hs & Hstep)];
        apply (get_user_state_frame _ _ _ _ _ [ELog INFO LMessageReceived])
          in Hs as [_ Hs];
        (erewrite bind_run; [|exact Hs]); cbv beta iota; [reflexivity|].
      rw (bool_decide_eq_false_2 _ Hstep). reflexivity. }
  reflexivity.
Qed.

Lemma ignored_message_witness :
  handle_message_event demo_env demo_stranger demo_world
  = (Ok (JMsg (py "Message processed"), 200%Z),
     add_events [ELog INFO LMessageReceived] demo_world).
Proof.
  apply (ignored_message demo_env demo_stranger demo_world).
  right. right. split; [reflexivity|]. left. vm_compute. reflexivity.
Defined.

Lemma find_target_table_store env tables w r w1 :
  find_target_table env tables w = (r, w1) ->
  (exists e, r = Raise e /\ w1 = w) \/
  (exists t, r = Ok (table_id t) /\ w1 = cache_table t w).
Proof.
  induction tables as [|t tables IH]; cbn [find_target_table].
  - intros [= <- <-]. left. by eexists.
  - case_bool_decide as Hname; [|done]. intros Hrun. right. exists t.
    unfold bind, get_redis_client, cache_table, redis_setex, set_store, ret in *.
    destruct (redis_client w); by injection Hrun as <- <-.
Qed.

(** A lookup that raises has cached nothing. *)
Lemma get_target_table_id_raise env w e w1 :
  get_target_table_id env w = (Raise e, w1) ->
  redis_client w1 = redis_client w /\
  exists evs, trace w1 = trace w ++ evs /\ Forall (fun e => is_quiet e = true) evs.
Proof.
  intros H. split.
  - revert H. unfold get_target_table_id, bind at 1, get_redis_client.
    cbv beta iota. destruct (cached_table_id _); [done|].
    unfold try_except, sdk_call, data_of, iter_of, bind, log, emit, raise, ret.
    destruct (api_list_tables env _) as [|resp]; [by intros [= _ <-]|].
    destruct (success resp); cbn [negb]; [|by intros [= _ <-]].
    destruct (data resp) as [[tables|]|]; try by intros [= _ <-].
    destruct (find_target_table env tables _) as [[a|e'] w'] eqn:E; [done|].
    intros [= _ <-].
    apply find_target_table_store in E as [(e0 & _ & ->)|(t & [=] & _)].
    reflexivity.
  - destruct (quiet_get_target_table_id env _ _ _ H) as (evs & Ht & Hq & _).
    by exists evs.
Qed.

(** X6.  A user has a session with step "waiting_info" and sends a
    direct message with a phone or a social handle, and locating the
    table raises.  Then the handler answers 500 with the error; no
    message is sent to the user, no record is searched or written, and
    Redis is what it was, so the session stays until it expires. *)
Theorem lookup_failure_is_silent env event w st ci e w1 :
  ev_chat_type event = py "p2p" ->
  get_user_state env (ev_user_id event) w = (Ok (Some st), w) ->
  step st = waiting_info ->
  parse_customer_info (strip (ev_text event)) = Ok ci ->
  truthy_opt (ci !! lbl_phone) = true \/ truthy_opt (ci !! lbl_wechat) = true ->
  get_target_table_id env (add_events [ELog INFO LMessageReceived] w)
    = (Raise e, w1) ->
  exists evs,
    handle_message_event env event w
      = (Ok (JErrorOf e, 500%Z),
         add_events [ELog ERROR (LMessageException e)] w1) /\
    trace w1 = trace w ++ evs /\
    sent_messages evs = [] /\
    Forall (fun e => is_writer_request e = false) evs /\
    redis_client w1 = redis_client w.
Proof.
  intros Hp2p Hsess Hstep Hparse Hkey Htid.
  set (w0 := add_events [ELog INFO LMessageReceived] w) in *.
  destruct (get_user_state_frame _ _ _ _ _ [ELog INFO LMessageReceived] Hsess)
    as [_ Hsess']. fold w0 in Hsess'.
  destruct (get_target_table_id_raise _ _ _ _ Htid) as (Hredis & evs1 & Htrace & Hq).
  assert (Hne : ci <> ∅).
  { intros ->. rw !lookup_empty in Hkey. by destruct Hkey. }
  assert (Hcond : negb (truthy_opt (ci !! lbl_phone))
                  && negb (truthy_opt (ci !! lbl_wechat)) = false).
  { destruct Hkey as [-> | ->]; [done | by rw andb_false_r]. }
  exists (ELog INFO LMessageReceived :: evs1).
  split; [|split; [|split; [|split]]].
  - unfold handle_message_event.
    erewrite try_except_run; cycle 1.
    { erewrite bind_run; [|apply log_run]. cbv beta iota. fold w0.
      rw Hp2p (bool_decide_eq_false_2 _ p2p_not_group).
      rw bool_decide_eq_true_2 //. cbn [andb].
      erewrite bind_run; [|exact Hsess']. cbv beta iota.
      rw Hstep bool_decide_eq_true_2 //.
      unfold lift at 1. erewrite bind_run; [|by rw Hparse]. cbv beta iota.
      rw bool_decide_eq_true_2 //. cbv zeta. rw Hcond.
      erewrite bind_run; [|exact Htid]. reflexivity. }
    reflexivity.
  - rw Htrace /w0 /= -!app_assoc. done.
  - cbn [sent_messages]. by rw sent_messages_quiet.
  - constructor; [done|]. by apply quiet_not_writer.
  - by rw Hredis.
Qed.

Lemma lookup_failure_is_silent_witness :
  exists evs,
    handle_message_event tables_down_env demo_reply_phone demo_world
      = (Ok (JErrorOf SdkError, 500%Z),
         add_events [ELog ERROR (LMessageException SdkError)]
           (snd (get_target_table_id tables_down_env
                   (add_events [ELog INFO LMessageReceived] demo_world)))) /\
    trace (snd (get_target_table_id tables_down_env
                  (add_events [ELog INFO LMessageReceived] demo_world)))
      = trace demo_world ++ evs /\
    sent_messages evs = [] /\
    Forall (fun e => is_writer_request e = false) evs /\
    redis_client (snd (get_target_table_id tables_down_env
                         (add_events [ELog INFO LMessageReceived] demo_world)))
      = redis_client demo_world.
Proof.
  apply (lookup_failure_is_silent tables_down_env demo_reply_phone demo_world
           demo_session {[ lbl_phone := py "138" ]} SdkError
           (snd (get_target_table_id tables_down_env
                   (add_events [ELog INFO LMessageReceived] demo_world))));
    try (vm_compute; reflexivity).
  left. reflexivity.
Defined.

(** X7.  With Redis available and a session that survives the JSON
    round trip, a trigger in a group chat followed by a direct message
    of the same user in which nothing is extracted is answered in the
    group chat of the trigger: the one message of the second handling,
    the format reminder, goes to the chat stored in the session, not to
    the direct chat. *)
Theorem reply_after_trigger_goes_to_group env trig reply w store :
  redis_client w = Some store ->
  ev_chat_type trig = py "group" ->
  contains (py "@_user_1") (strip (ev_text trig)) = true ->
  json_loads env
    (json_dumps env {| chat_id := ev_chat_id trig; step := waiting_info;
                       created_at := now_isoformat env |})
    = Some {| chat_id := ev_chat_id trig; step := waiting_info;
              created_at := now_isoformat env |} ->
  json_dumps env {| chat_id := ev_chat_id trig; step := waiting_info;
                    created_at := now_isoformat env |} <> [] ->
  ev_chat_type reply = py "p2p" ->
  ev_user_id reply = ev_user_id trig ->
  parse_customer_info (strip (ev_text reply)) = Ok ∅ ->
  exists evs,
    handle_message_event env reply (snd (handle_message_event env trig w))
      = (Ok (JMsg (py "Message processed"), 200%Z),
         add_events evs (snd (handle_message_event env trig w))) /\
    sent_messages evs = [(ev_chat_id trig, msg_bad_format)].
Proof.
  intros Hstore Hgroup Hmention Hloads Hdumps Hp2p Huser Hparse.
  destruct (handle_trigger env trig w Hgroup Hmention) as (evs0 & Hrun & _).
  rw Hrun Hstore. cbn [snd].
  set (sess := {| chat_id := ev_chat_id trig; step := waiting_info;
                  created_at := now_isoformat env |}) in *.
  apply (handle_bad_format env reply _ sess); [done| |done|done].
  rw Huser. unfold get_user_state, bind, get_redis_client, redis_get.
  cbn [redis_client]. rw lookup_insert_eq. cbn [fmap option_fmap option_map fst].
  destruct (json_dumps env sess) as [|c t] eqn:E; [done|].
  cbn [truthy]. by rw Hloads.
Qed.

Lemma reply_after_trigger_goes_to_group_witness :
  exists evs,
    handle_message_event demo_env demo_reply_after_trigger
      (snd (handle_message_event demo_env demo_trigger demo_world))
      = (Ok (JMsg (py "Message processed"), 200%Z),
         add_events evs (snd (handle_message_event demo_env demo_trigger
                                demo_world))) /\
    sent_messages evs = [(py "oc_1", msg_bad_format)].
Proof.
  apply (reply_after_trigger_goes_to_group demo_env demo_trigger
           demo_reply_after_trigger demo_world
           {[ user_state_key (Some (py "ou_1")) :=
                (demo_dumps demo_session, 300%Z) ]});
    try (vm_compute; reflexivity).
  discriminate.
Defined.

(** ** Session Store: reads after writes *)

(** X8.  With Redis available and a session that survives the JSON
    round trip: after [set_user_state] the user's session reads back;
    users under other keys read what they read before, and the cached
    table id is untouched; after [delete_user_state] the user has no
    session; and two different user ids never share a key. *)
Theorem session_store_laws env w store uid s ttl :
  redis_client w = Some store ->
  json_loads env (json_dumps env s) = Some s ->
  json_dumps env s <> [] ->
  let w1 := snd (set_user_state env uid s ttl w) in
  get_user_state env uid w1 = (Ok (Some s), w1) /\
  (forall uid', user_state_key uid' <> user_state_key uid ->
     fst (get_user_state env uid' w1) = fst (get_user_state env uid' w)) /\
  cached_table_id (redis_client w1) = cached_table_id (redis_client w) /\
  fst (get_user_state env uid (snd (delete_user_state uid w1))) = Ok None /\
  (forall a b, user_state_key (Some a) = user_state_key (Some b) -> a = b).
Proof.
  intros Hstore Hloads Hdumps w1. subst w1.
  rw set_user_state_run Hstore. cbn [snd].
  split; [|split; [|split; [|split]]].
  - unfold get_user_state, bind, get_redis_client, redis_get.
    cbn [redis_client]. rw lookup_insert_eq. cbn [fmap option_fmap option_map fst].
    destruct (json_dumps env s) as [|c t] eqn:E; [done|].
    cbn [truthy]. by rw Hloads.
  - intros uid' Hne.
    unfold get_user_state, bind, get_redis_client, redis_get.
    cbn [redis_client]. rw Hstore lookup_insert_ne //.
    destruct (fst <$> store !! _) as [v|]; [|done].
    destruct (truthy v); [|done]. by destruct (json_loads env v).
  - cbn [redis_client]. unfold cached_table_id, redis_get.
    by rw lookup_insert_ne.
  - rw delete_user_state_run. cbn [snd redis_client].
    unfold get_user_state, bind, get_redis_client, redis_get.
    cbn [redis_client]. by rw lookup_delete_eq.
  - intros a b H. unfold user_state_key in H. cbn [fmt_opt] in H.
    by apply app_inv_head in H.
Qed.

Lemma session_store_laws_witness :
  let w1 := snd (set_user_state demo_env (Some (py "ou_2")) demo_session
                   300%Z demo_world) in
  get_user_state demo_env (Some (py "ou_2")) w1 = (Ok (Some demo_session), w1) /\
  (forall uid', user_state_key uid' <> user_state_key (Some (py "ou_2")) ->
     fst (get_user_state demo_env uid' w1)
     = fst (get_user_state demo_env uid' demo_world)) /\
  cached_table_id (redis_client w1) = cached_table_id (redis_client demo_world) /\
  fst (get_user_state demo_env (Some (py "ou_2"))
         (snd (delete_user_state (Some (py "ou_2")) w1))) = Ok None /\
  (forall a b, user_state_key (Some a) = user_state_key (Some b) -> a = b).
Proof.
  apply (session_store_laws demo_env demo_world
           {[ user_state_key (Some (py "ou_1")) :=
                (demo_dumps demo_session, 300%Z) ]}
           (Some (py "ou_2")) demo_session 300%Z).
  - reflexivity.
  - vm_compute. reflexivity.
  - discriminate.
Defined.

(** ** Table Locator: the cache and failures *)

Lemma get_target_table_id_ok env w store tid w1 :
  redis_client w = Some store ->
  get_target_table_id env w = (Ok tid, w1) ->
  exists store1, redis_client w1 = Some store1 /\
                 redis_get store1 cache_key = Some tid.
Proof.
  intros Hstore.
  unfold get_target_table_id, bind at 1, get_redis_client. cbv beta iota.
  destruct (cached_table_id (redis_client w)) as [c|] eqn:Hc.
  - intros [= <- <-]. exists store. split; [done|]. rw Hstore in Hc.
    unfold cached_table_id in Hc.
    destruct (redis_get store cache_key) as [c'|]; [|done].
    destruct (truthy c'); [|done]. by injection Hc as ->.
  - unfold try_except, sdk_call, data_of, iter_of, bind, log, emit, raise, ret.
    destruct (api_list_tables env _) as [|resp]; [done|].
    destruct (success resp); cbn [negb]; [|done].
    destruct (data resp) as [[tables|]|]; try done.
    destruct (find_target_table env tables _) as [[a|e'] w'] eqn:E; [|done].
    intros [= -> ->].
    apply find_target_table_store in E as [(e0 & [=] & _)|(t & [= ->] & ->)].
    unfold cache_table, add_events. cbn [redis_client]. rw Hstore.
    eexists. split; [reflexivity|].
    unfold redis_get. by rw lookup_insert_eq.
Qed.

(** X9.  With Redis available, once [get_target_table_id] has returned
    a non-empty id, every later call in a world with the same Redis
    content returns that id at once: the world is unchanged, so no list
    request is issued. *)
Theorem located_table_is_reused env w store tid w1 :
  redis_client w = Some store ->
  get_target_table_id env w = (Ok tid, w1) ->
  tid <> [] ->
  forall w2, redis_client w2 = redis_client w1 ->
    get_target_table_id env w2 = (Ok tid, w2).
Proof.
  intros Hstore Hrun Htid w2 Hsame.
  destruct (get_target_table_id_ok env w store tid w1 Hstore Hrun)
    as (store1 & Hstore1 & Hc).
  unfold get_target_table_id, bind at 1, get_redis_client. cbv beta iota.
  rw Hsame Hstore1. unfold cached_table_id. rw Hc.
  by destruct tid.
Qed.

Lemma located_table_is_reused_witness :
  get_target_table_id demo_env
    (add_events [EListTables (py "later")]
       (snd (get_target_table_id demo_env demo_world)))
  = (Ok (py "tbl1"),
     add_events [EListTables (py "later")]
       (snd (get_target_table_id demo_env demo_world))).
Proof.
  apply (located_table_is_reused demo_env demo_world
           {[ user_state_key (Some (py "ou_1")) :=
                (demo_dumps demo_session, 300%Z) ]}
           (py "tbl1") (snd (get_target_table_id demo_env demo_world))).
  - reflexivity.
  - vm_compute. reflexivity.
  - discriminate.
  - reflexivity.
Defined.

(** X10.  When no table id is cached and the list request fails,
    [get_target_table_id] raises: the SDK's exception when the call
    raised, "获取表格列表失败" with the response's message when the
    response is not a success.  Only that one request went out, the
    failure is logged, and Redis is unchanged. *)
Theorem table_list_failure_raises env w :
  cached_table_id (redis_client w) = None ->
  call_failed (api_list_tables env (bp_app_token (parse_base_url env))) ->
  exists e evs,
    get_target_table_id env w
      = (Raise e,
         add_events (EListTables (bp_app_token (parse_base_url env)) :: evs) w) /\
    Forall (fun e => is_log e = true) evs /\
    match api_list_tables env (bp_app_token (parse_base_url env)) with
    | ApiRaise => e = SdkError
    | ApiResp resp => e = TableListFailed (msg resp)
    end.
Proof.
  intros Hmiss Hfail.
  unfold get_target_table_id, bind at 1, get_redis_client. cbv beta iota.
  rw Hmiss.
  unfold try_except, sdk_call, data_of, iter_of, bind, log, emit, raise, ret.
  destruct Hfail as [E|(resp & E & Hs)]; rw E.
  - eexists _, [_]. rw add_events_app. split; [reflexivity|].
    split; [by repeat constructor | done].
  - rw Hs. cbn [negb]. eexists _, [_; _]. rw !add_events_app.
    split; [reflexivity|]. split; [by repeat constructor | done].
Qed.

Lemma table_list_failure_raises_witness :
  exists e evs,
    get_target_table_id tables_down_env degraded_world
      = (Raise e,
         add_events
           (EListTables (bp_app_token (parse_base_url tables_down_env)) :: evs)
           degraded_world) /\
    Forall (fun e => is_log e = true) evs /\
    match api_list_tables tables_down_env
            (bp_app_token (parse_base_url tables_down_env)) with
    | ApiRaise => e = SdkError
    | ApiResp resp => e = TableListFailed (msg resp)
    end.
Proof.
  apply (table_list_failure_raises tables_down_env degraded_world).
  - reflexivity.
  - left. reflexivity.
Defined.

(** ** Field schema *)

Lemma collect_fields_run items : forall acc w,
  (existsb invalid_property items = false /\
   exists infos, collect_fields items acc w = (Ok (acc ++ infos), w) /\
                 Forall2 describes items infos) \/
  (existsb invalid_property items = true /\
   collect_fields items acc w = (Raise JSONDecodeError, w)).
Proof.
  induction items as [|it items IH]; intros acc w.
  - left. split; [done|]. exists []. by rw app_nil_r.
  - cbn [collect_fields existsb]. unfold invalid_property at 1 3.
    unfold bind, field_info_of.
    destruct (item_property it) as [| |opts] eqn:Hp; cbn [orb].
    + unfold ret. cbv beta iota.
      destruct (IH (acc ++ [ {| field_id := item_field_id it;
                               field_name := item_field_name it;
                               type := item_type it; property := None |} ]) w)
        as [(Hv & infos & Hrun & Hall)|(Hv & Hrun)].
      * left. split; [done|]. eexists (_ :: infos).
        rw Hrun -app_assoc. split; [done|].
        constructor; [|done]. unfold describes. by rw Hp.
      * right. by split.
    + right. by split.
    + unfold ret. cbv beta iota.
      destruct (IH (acc ++ [ {| field_id := item_field_id it;
                               field_name := item_field_name it;
                               type := item_type it; property := opts |} ]) w)
        as [(Hv & infos & Hrun & Hall)|(Hv & Hrun)].
      * left. split; [done|]. eexists (_ :: infos).
        rw Hrun -app_assoc. split; [done|].
        constructor; [|done]. unfold describes. by rw Hp.
      * right. by split.
Qed.

(** X11.  [get_table_fields] never raises and issues exactly one
    field-list request.  It returns the empty list when the call raises
    or is not a success, and also when the property text of any one
    field is not valid JSON; otherwise it returns one dictionary per
    field, in order, with the field's id, name, type and options. *)
Theorem table_fields_never_raise env app_token tid w :
  exists schema evs,
    get_table_fields env app_token tid w
      = (Ok schema, add_events (EListFields app_token tid :: evs) w) /\
    Forall (fun e => is_log e = true) evs /\
    (call_failed (api_list_fields env app_token tid) -> schema = []) /\
    (forall resp items,
       api_list_fields env app_token tid = ApiResp resp ->
       success resp = true ->
       data resp = Some (Some items) ->
       (existsb invalid_property items = true -> schema = []) /\
       (existsb invalid_property items = false -> Forall2 describes items schema)).
Proof.
  unfold get_table_fields, try_except, sdk_call.
  unfold bind at 2. unfold emit at 1.
  destruct (api_list_fields env app_token tid) as [|resp] eqn:Hapi;
    cbv beta iota.
  - exists [], [ELog ERROR (LGetFieldsFailed SdkError)].
    unfold bind, raise, log, emit, ret. rw add_events_app.
    split; [done|]. split; [by repeat constructor|]. by split.
  - unfold bind at 1. unfold ret at 1. cbv beta iota.
    destruct (success resp) eqn:Hs; cbn [negb]; cbv beta iota.
    + unfold bind at 1. unfold data_of.
      destruct (data resp) as [[items|]|] eqn:Hd.
      * unfold ret at 1. cbv beta iota. unfold bind at 1. unfold iter_of.
        unfold ret at 1. cbv beta iota.
        destruct (collect_fields_run items []
                    (add_events [EListFields app_token tid] w))
          as [(Hv & infos & Hrun & Hall)|(Hv & Hrun)]; rw Hrun.
        -- exists infos, []. split; [done|]. split; [done|]. split.
           ++ intros [E|(r & E & Hf)]; [done|]. injection E as <-. congruence.
           ++ intros r its [= <-] _ Hd'. rw Hd in Hd'. injection Hd' as <-.
              split; [congruence | done].
        -- exists [], [ELog ERROR (LGetFieldsFailed JSONDecodeError)].
           unfold bind, log, emit, ret. rw add_events_app.
           split; [done|]. split; [by repeat constructor|]. split; [done|].
           intros r its [= <-] _ Hd'. rw Hd in Hd'. injection Hd' as <-.
           split; [done | congruence].
      * exists [], [ELog ERROR (LGetFieldsFailed TypeError)].
        unfold ret at 1. cbv beta iota. unfold bind at 1. unfold iter_of.
        unfold raise at 1. unfold bind, log, emit, ret. rw add_events_app.
        split; [done|]. split; [by repeat constructor|]. split; [done|].
        intros r its [= <-] _ Hd'. congruence.
      * exists [], [ELog ERROR (LGetFieldsFailed AttributeError)].
        unfold raise at 1. unfold bind, log, emit, ret. rw add_events_app.
        split; [done|]. split; [by repeat constructor|]. split; [done|].
        intros r its [= <-] _ Hd'. congruence.
    + exists [], [ELog ERROR (LListFieldsFailed (msg resp))].
      unfold bind, log, emit, ret. rw add_events_app.
      split; [done|]. split; [by repeat constructor|]. split; [done|].
      intros r its [= <-] Hs'. congruence.
Qed.

(** X12.  [get_single_select_option_id] returns an id exactly when the
    schema defines, for a field of that name and of type 3, an option
    with that text, and the id is that of such an option; fields of
    another name or type are never consulted. *)
Theorem option_id_exactly_when_defined schema fld v :
  (forall i, get_single_select_option_id schema fld (Some v) = Some i ->
             exists o, defines_option schema fld v o /\ opt_id o = i) /\
  (get_single_select_option_id schema fld (Some v) = None <->
   forall o, ~ defines_option schema fld v o).
Proof.
  split; [intros i; apply option_id_Some|]. split.
  - intros Hnone o. by apply option_id_None.
  - intros Hnone.
    destruct (get_single_select_option_id schema fld (Some v)) as [i|] eqn:E;
      [|done].
    apply option_id_Some in E as (o & Hdef & _). by destruct (Hnone o).
Qed.

(** ** Duplicate Checker: a search that succeeds *)

(** X13.  With a phone or a social handle given and a search that
    returns a success response, [check_duplicate_record] issues one
    search for the column "客户ID" with an "or" filter that holds one
    "is" condition per key given, phone first; it answers [(True, id)]
    with the id of the first record returned, and [(False, None)] when
    no records come back. *)
Theorem duplicate_is_first_record env app_token tid phone wechat w resp d :
  truthy_opt phone = true \/ truthy_opt wechat = true ->
  (forall names f, api_search env app_token tid names f = ApiResp resp) ->
  success resp = true ->
  data resp = Some d ->
  check_duplicate_record env app_token tid phone wechat w
  = (Ok (first_record (Some d)),
     add_events
       [ESearch app_token tid [lbl_customer_id]
          {| conjunction := py "or";
             conditions := condition_for lbl_phone phone
                           ++ condition_for lbl_wechat wechat |}] w).
Proof.
  intros Hkey Hsearch Hs Hd.
  unfold check_duplicate_record, try_except, sdk_call, data_of, bind, log, emit,
    raise, ret.
  destruct phone as [[|p0 p]|], wechat as [[|w0 q]|];
    simpl in Hkey; try (by destruct Hkey);
    cbn [truthy app condition_for]; rw Hsearch Hs Hd; cbn [negb];
    by destruct d as [[|r rs]|].
Qed.

Lemma duplicate_is_first_record_witness :
  check_duplicate_record demo_env (py "app") (py "tbl1")
    (Some (py "138")) (Some (py "wx")) demo_world
  = (Ok (first_record (Some (Some [ {| record_id := py "rec9" |} ]))),
     add_events
       [ESearch (py "app") (py "tbl1") [lbl_customer_id]
          {| conjunction := py "or";
             conditions := condition_for lbl_phone (Some (py "138"))
                           ++ condition_for lbl_wechat (Some (py "wx")) |}]
       demo_world).
Proof.
  apply (duplicate_is_first_record demo_env (py "app") (py "tbl1")
           (Some (py "138")) (Some (py "wx")) demo_world
           (ok_response (Some [ {| record_id := py "rec9" |} ]))).
  - left. reflexivity.
  - intros names f. reflexivity.
  - reflexivity.
  - reflexivity.
Defined.

(** X14.  [check_duplicate_record] never raises, whatever the search
    does: it returns a flag and an id, the id is present exactly when
    the flag is set, at most one search request was issued, and Redis
    is unchanged. *)
Theorem check_duplicate_never_raises env app_token tid phone wechat w :
  exists b i evs,
    check_duplicate_record env app_token tid phone wechat w
      = (Ok (b, i), add_events evs w) /\
    (b = true <-> is_Some i) /\
    (length (List.filter is_search_request evs) <= 1)%nat.
Proof.
  assert (Hno : false = true <-> is_Some (@None pystr)).
  { split; [done|]. by intros [x Hx]. }
  assert (Hyes : forall x : pystr, true = true <-> is_Some (Some x)).
  { intros x. split; [by eexists | done]. }
  unfold check_duplicate_record, try_except, sdk_call, data_of, bind, log, emit,
    raise, ret.
  destruct phone as [[|p0 p]|], wechat as [[|w0 q]|]; cbn [truthy app];
    try (exists false, None, []; rw add_events_nil; split; [done|];
         split; [done | simpl; lia]);
    (destruct (api_search env _ _ _ _) as [|resp];
     [|destruct (success resp); cbn [negb];
       [destruct (data resp) as [[[|r rs]|]|]|]]);
    rw ?add_events_app; eexists _, _, _;
    (split; [reflexivity|]); (split; [done | simpl; lia]).
Qed.

(** ** Record Writer: the result flag and the other fields *)

(** X15.  [create_customer_record] never raises, and it returns [True]
    exactly when the create call returned a success response that
    carries the new record: a call that raises, a response that is not
    a success, and a success response without the record all give
    [False]. *)
Theorem create_returns_flag env app_token tid fields_data w schema :
  fst (get_table_fields env app_token tid w) = Ok schema ->
  fst (create_customer_record env app_token tid fields_data w)
  = Ok (created (api_create env app_token tid
                   (build_fields env schema fields_data))).
Proof.
  intros Hschema.
  destruct (get_table_fields_run env app_token tid w)
    as (schema' & evs1 & Hfields & _).
  rw Hfields in Hschema. injection Hschema as ->.
  unfold create_customer_record, try_except.
  erewrite (bind_run _ _ _ _ _ Hfields). cbv beta iota zeta.
  unfold created, sdk_call, data_of, bind, log, emit, raise, ret.
  destruct (api_create env app_token tid _) as [|resp]; [reflexivity|].
  destruct (success resp); cbn [negb andb]; [|reflexivity].
  by destruct (data resp) as [[r|]|].
Qed.

Lemma create_returns_flag_witness :
  fst (create_customer_record demo_env (py "app") (py "tbl1")
         {[ lbl_phone := Some (py "138") ]} demo_world)
  = Ok (created (api_create demo_env (py "app") (py "tbl1")
                   (build_fields demo_env demo_field_infos
                      {[ lbl_phone := Some (py "138") ]}))).
Proof.
  apply (create_returns_flag demo_env (py "app") (py "tbl1")
           {[ lbl_phone := Some (py "138") ]} demo_world demo_field_infos).
  vm_compute. reflexivity.
Defined.

Lemma fill_enumerated_other table_fields fields_data fields fld k :
  fld <> k ->
  fill_enumerated table_fields fields_data fields fld !! k = fields !! k.
Proof.
  intros Hne. unfold fill_enumerated.
  destruct (fields_data !! fld); [|done].
  destruct (truthy_opt _); by rw lookup_insert_ne.
Qed.

Lemma copy_other_lookup fields_data fields k :
  k ∉ enumerated ->
  map_fold copy_other fields fields_data !! k
  = match fields_data !! k with
    | Some v => if truthy_opt v then Some v else fields !! k
    | None => fields !! k
    end.
Proof.
  intros Hk.
  apply (map_fold_weak_ind
           (fun r m => r !! k = match m !! k with
                                | Some v => if truthy_opt v then Some v
                                            else fields !! k
                                | None => fields !! k
                                end)); [done|].
  intros i x m r Hi IH. unfold copy_other.
  destruct (decide (i = k)) as [->|Hne].
  - rw lookup_insert_eq bool_decide_eq_true_2 //. cbn [andb].
    rw Hi in IH. destruct (truthy_opt x); [by rw lookup_insert_eq | done].
  - rw (lookup_insert_ne m) //.
    destruct (bool_decide (i ∉ enumerated) && truthy_opt x); [|done].
    by rw lookup_insert_ne.
Qed.

(** X16.  For a key other than "渠道" and "来源",
    [create_customer_record] writes the supplied value as it is when
    that value is a non-empty string, and leaves the key out when the
    value is missing, [None] or empty; only "录入日期" is then filled
    with today's date. *)
Theorem other_fields_copied env schema fields_data k :
  k ∉ enumerated ->
  build_fields env schema fields_data !! k
  = match fields_data !! k with
    | Some v => if truthy_opt v then Some v else unsupplied env k
    | None => unsupplied env k
    end.
Proof.
  intros Hk. unfold build_fields, unsupplied.
  set (fields := foldl _ _ _).
  assert (Hfields : forall j, j ∉ enumerated -> fields !! j = None).
  { intros j Hj. unfold fields, enumerated in *. cbn [foldl].
    assert (lbl_channel <> j /\ lbl_source <> j) as [Hc Hs].
    { split; intros <-; apply Hj; by repeat constructor. }
    by rw (fill_enumerated_other _ _ _ _ _ Hs)
          (fill_enumerated_other _ _ _ _ _ Hc). }
  assert (Hdate : lbl_entry_date ∉ enumerated).
  { unfold enumerated. solve_not_elem. }
  pose proof (copy_other_lookup fields_data fields k Hk) as Hlook.
  pose proof (copy_other_lookup fields_data fields lbl_entry_date Hdate) as Hd.
  rw (Hfields k Hk) in Hlook. rw (Hfields _ Hdate) in Hd.
  destruct (map_fold copy_other fields fields_data !! lbl_entry_date)
    as [x|] eqn:Ex.
  - rw Hlook. case_bool_decide as Hkd; [|done]. subst k.
    destruct (fields_data !! lbl_entry_date) as [v|]; [|done].
    by destruct (truthy_opt v).
  - case_bool_decide as Hkd.
    + subst k. rw lookup_insert_eq.
      destruct (fields_data !! lbl_entry_date) as [v|]; [|done].
      by destruct (truthy_opt v).
    + rw lookup_insert_ne //.
Qed.

Lemma other_fields_copied_witness :
  build_fields demo_env demo_field_infos
    {[ lbl_phone := Some (py "138") ]} !! lbl_wechat
  = match ({[ lbl_phone := Some (py "138") ]} : gmap pystr (option pystr))
          !! lbl_wechat with
    | Some v => if truthy_opt v then Some v else unsupplied demo_env lbl_wechat
    | None => unsupplied demo_env lbl_wechat
    end.
Proof.
  apply (other_fields_copied demo_env demo_field_infos
           {[ lbl_phone := Some (py "138") ]} lbl_wechat).
  unfold enumerated. solve_not_elem.
Defined.

(** ** Sending a message *)

(** X17.  [send_message] never raises and issues exactly one send
    request, of type "text" to the given chat.  It returns [True]
    exactly when the call returned a success response, and logs one
    error line in every other case. *)
Theorem send_message_outcome env chat content w :
  exists evs,
    send_message env chat content w
      = (Ok (delivered (api_send env chat content (py "text"))),
         add_events (ESend chat content (py "text") :: evs) w) /\
    Forall (fun e => is_log e = true) evs /\
    length evs = (if delivered (api_send env chat content (py "text"))
                  then 0 else 1)%nat.
Proof.
  unfold send_message, try_except, sdk_call, bind, log, emit, raise, ret,
    delivered.
  destruct (api_send env chat content (py "text")) as [|r].
  - eexists [_]. rw add_events_app. split; [done|].
    split; [by repeat constructor | done].
  - destruct (success r); cbn [negb].
    + exists []. by split.
    + eexists [_]. rw add_events_app. split; [done|].
      split; [by repeat constructor | done].
Qed.

(** ** Webhook Endpoint: rejection and dispatch *)

(** X18.  With a verification token configured, a request whose header
    is missing or different is answered 403 "Invalid token" whatever
    its body; nothing but the log line is added to the world, so no
    event is dispatched, no message sent and no session touched. *)
Theorem webhook_rejects_bad_token env request w :
  VERIFICATION_TOKEN env <> [] ->
  req_token request <> Some (VERIFICATION_TOKEN env) ->
  webhook env request w
  = (Ok (JError (py "Invalid token"), 403%Z),
     add_events [ELog INFO LWebhookReceived] w).
Proof.
  intros Hset Hdiff. unfold webhook, try_except, bind, log, emit.
  cbv beta iota. rw bool_decide_eq_true_2 //.
  by destruct (VERIFICATION_TOKEN env).
Qed.

Lemma webhook_rejects_bad_token_witness :
  webhook token_env demo_message_request demo_world
  = (Ok (JError (py "Invalid token"), 403%Z),
     add_events [ELog INFO LWebhookReceived] demo_world).
Proof.
  apply (webhook_rejects_bad_token token_env demo_message_request demo_world);
    discriminate.
Defined.

(** No exception leaves the message handler. *)
Lemma handle_never_raises env event w :
  exists resp w', handle_message_event env event w = (Ok resp, w').
Proof.
  unfold handle_message_event, try_except.
  destruct (bind _ _ w) as [[resp|e] w']; [by eexists _, _|].
  unfold bind, log, emit, ret. by eexists _, _.
Qed.

(** X19.  When the token check passes and the body is not the
    handshake: for an event of type "im.message.receive_v1" the
    response and the effects of the webhook are exactly those of
    [handle_message_event] on its message, after the log line; every
    other body is acknowledged with 200 "Event received" and adds only
    the log line. *)
Theorem webhook_dispatches env request w :
  VERIFICATION_TOKEN env = [] \/
    req_token request = Some (VERIFICATION_TOKEN env) ->
  env_type (req_json request) <> Some (py "url_verification") ->
  webhook env request w
  = match env_event (req_json request) with
    | Some event =>
      if bool_decide (we_type event = Some (py "im.message.receive_v1"))
      then handle_message_event env (we_message event)
             (add_events [ELog INFO LWebhookReceived] w)
      else (Ok (JMsg (py "Event received"), 200%Z),
            add_events [ELog INFO LWebhookReceived] w)
    | None => (Ok (JMsg (py "Event received"), 200%Z),
               add_events [ELog INFO LWebhookReceived] w)
    end.
Proof.
  intros Htoken Htype. unfold webhook, try_except.
  erewrite bind_run; [|apply log_run]. cbv beta iota.
  assert (truthy (VERIFICATION_TOKEN env)
          && bool_decide (req_token request <> Some (VERIFICATION_TOKEN env))
          = false) as ->.
  { destruct Htoken as [-> | Hsame]; [done|].
    rw (bool_decide_eq_false_2 (req_token request <> _)); [by intros H|].
    by rw andb_false_r. }
  rw (bool_decide_eq_false_2 _ Htype).
  destruct (env_event (req_json request)) as [event|]; [|done].
  destruct (bool_decide (we_type event = _)); [|done].
  destruct (handle_never_raises env (we_message event)
              (add_events [ELog INFO LWebhookReceived] w)) as (resp & w' & ->).
  reflexivity.
Qed.

Lemma webhook_dispatches_witness :
  webhook demo_env demo_message_request demo_world
  = handle_message_event demo_env demo_stranger
      (add_events [ELog INFO LWebhookReceived] demo_world).
Proof.
  apply (webhook_dispatches demo_env demo_message_request demo_world).
  - left. reflexivity.
  - discriminate.
Defined.

(** ** Table Locator: the table URL *)

(** X20.  The bot never reads the query string of [BASE_URL]: with any
    other query string (a [table] or [view] parameter added, changed or
    removed) [get_target_table_id] and the whole webhook return the
    same result and leave the same world.  Unlike main.py, the bot
    resolves the table by name even when the URL names a table. *)
Theorem query_string_is_ignored env q :
  (forall w, get_target_table_id (with_query env q) w
             = get_target_table_id env w) /\
  (forall request w, webhook (with_query env q) request w
                     = webhook env request w).
Proof. split; reflexivity. Qed.

Lemma main_wiki_run env token node_token w :
  MainPy.get_wiki_node_info env token node_token w
  = (match http_wiki_node env token node_token with
     | HttpRaise => Raise HTTPError
     | HttpJson code m d =>
       if (code =? 0)%Z then
         match d with
         | Some node_info => Ok node_info
         | None => Raise WikiNodeMissing
         end
       else Raise (WikiNodeFailed m)
     end,
     add_events [EHttpWikiNode token node_token] w).
Proof.
  unfold MainPy.get_wiki_node_info, bind, emit, raise, ret.
  destruct (http_wiki_node env token node_token) as [|code m d]; [done|].
  destruct (code =? 0)%Z; cbn [negb]; [|done]. by destruct d.
Qed.

(** X21.  In main.py, a URL with a [table] parameter is answered from
    the URL: [parse_base_url] returns that table id, the [view]
    parameter and the app token, and issues no request for the table
    list; the only request is the node lookup of a wiki link. *)
Theorem url_table_id_is_used env token url tid app_token w :
  query_first (url_query url) (py "table") = Some tid ->
  resolves_app_token env token url app_token ->
  MainPy.parse_base_url env token url w
  = (Ok {| bp_app_token := app_token; bp_table_id := Some tid;
           bp_view_id := query_first (url_query url) (py "view") |},
     add_events
       (if contains (py "/wiki/") (url_path url)
        then [EHttpWikiNode token (List.last (split_on slash (url_path url)) [])]
        else []) w).
Proof.
  intros Hq Hres. unfold MainPy.parse_base_url. cbv zeta. rw Hq.
  unfold resolves_app_token in Hres. cbv zeta in Hres.
  destruct (contains (py "/wiki/") (url_path url)).
  - destruct Hres as (m & node & Hnode & ->).
    erewrite bind_run; cycle 1.
    { erewrite bind_run; [|apply main_wiki_run]. rw Hnode. reflexivity. }
    reflexivity.
  - subst app_token. by rw add_events_nil.
Qed.

Lemma url_table_id_is_used_witness :
  MainPy.parse_base_url demo_env (py "t-abc") table_url demo_world
  = (Ok {| bp_app_token := py "PzITbIyJfaB03BsqVtIcrjtznFf";
           bp_table_id := Some (py "tblX");
           bp_view_id := Some (py "vewY") |},
     demo_world).
Proof.
  apply (url_table_id_is_used demo_env (py "t-abc") table_url (py "tblX")
           (py "PzITbIyJfaB03BsqVtIcrjtznFf") demo_world); reflexivity.
Defined.

(** X22.  In main.py, for a URL without a [table] parameter every
    failure of the table list ends [parse_base_url] with an exception
    after the one list request: a failed HTTP call raises its error, a
    non-zero [code] raises "failed to list bitable tables: <msg>", and
    an answer without [data] or [items] counts as an empty list, so
    that the table-id error is raised. *)
Theorem listing_failures_raise env token url app_token w :
  query_first (url_query url) (py "table") = None ->
  resolves_app_token env token url app_token ->
  match http_list_tables env token app_token with
  | HttpJson 0 _ (Some _) => False
  | _ => True
  end ->
  exists evs,
    MainPy.parse_base_url env token url w
    = (Raise match http_list_tables env token app_token with
             | HttpRaise => HTTPError
             | HttpJson code m d =>
               if (code =? 0)%Z then TableIdUnresolved else ListTablesFailed m
             end,
       add_events (evs ++ [EHttpListTables token app_token]) w).
Proof.
  intros Hq Hres Hfail. unfold MainPy.parse_base_url. cbv zeta. rw Hq.
  unfold resolves_app_token in Hres. cbv zeta in Hres.
  assert (Hstep : forall w1,
    bind (MainPy.list_bitable_tables env token app_token)
      (fun tables => match MainPy.first_named tables with
                     | Some tid => ret (Some tid)
                     | None => raise TableIdUnresolved
                     end) w1
    = (Raise match http_list_tables env token app_token with
             | HttpRaise => HTTPError
             | HttpJson code m d =>
               if (code =? 0)%Z then TableIdUnresolved else ListTablesFailed m
             end,
       add_events [EHttpListTables token app_token] w1)).
  { intros w1. unfold MainPy.list_bitable_tables, bind, emit, raise, ret.
    destruct (http_list_tables env token app_token) as [|code m d]; [done|].
    destruct (Z.eqb_spec code 0) as [->|Hne]; cbn [negb]; [|done].
    by destruct d. }
  destruct (contains (py "/wiki/") (url_path url)).
  - destruct Hres as (m & node & Hnode & ->).
    exists [EHttpWikiNode token (List.last (split_on slash (url_path url)) [])].
    erewrite bind_run; cycle 1.
    { erewrite bind_run; [|apply main_wiki_run]. rw Hnode. reflexivity. }
    cbv beta iota.
    erewrite bind_run; [|apply Hstep]. by rw add_events_app.
  - subst app_token. exists [].
    erewrite bind_run; [|reflexivity]. cbv beta iota.
    erewrite bind_run; [|apply Hstep]. reflexivity.
Qed.

Lemma listing_failures_raise_witness :
  exists evs,
    MainPy.parse_base_url http_down_env (py "t-abc") demo_url demo_world
    = (Raise HTTPError,
       add_events (evs ++ [EHttpListTables (py "t-abc")
                             (py "PzITbIyJfaB03BsqVtIcrjtznFf")]) demo_world).
Proof.
  apply (listing_failures_raise http_down_env (py "t-abc") demo_url
           (py "PzITbIyJfaB03BsqVtIcrjtznFf") demo_world);
    [reflexivity | reflexivity | exact I].
Defined.

(** X23.  In main.py, a wiki link is looked up before anything else:
    when the node lookup fails (the HTTP call fails, the answer has a
    non-zero [code], or it has no node), [parse_base_url] raises that
    failure after the one node request, whether or not the URL names a
    table, and no table list is requested. *)
Theorem wiki_failure_stops_parsing env token url w :
  contains (py "/wiki/") (url_path url) = true ->
  match http_wiki_node env token
          (List.last (split_on slash (url_path url)) []) with
  | HttpJson 0 _ (Some _) => False
  | _ => True
  end ->
  MainPy.parse_base_url env token url w
  = (Raise match http_wiki_node env token
                   (List.last (split_on slash (url_path url)) []) with
           | HttpRaise => HTTPError
           | HttpJson code m d =>
             if (code =? 0)%Z then WikiNodeMissing else WikiNodeFailed m
           end,
     add_events
       [EHttpWikiNode token (List.last (split_on slash (url_path url)) [])] w).
Proof.
  intros Hwiki Hfail. unfold MainPy.parse_base_url. cbv zeta. rw Hwiki.
  set (seg := List.last (split_on slash (url_path url)) []) in *.
  rw (bind_run _ _ _
    (Raise match http_wiki_node env token seg with
           | HttpRaise => HTTPError
           | HttpJson code m d =>
             if (code =? 0)%Z then WikiNodeMissing else WikiNodeFailed m
           end)
    (add_events [EHttpWikiNode token seg] w)); [|reflexivity].
  unfold bind. rw main_wiki_run.
  destruct (http_wiki_node env token seg) as [|code m d]; [done|].
  destruct (Z.eqb_spec code 0) as [->|Hne]; [|done].
  by destruct d.
Qed.

Lemma wiki_failure_stops_parsing_witness :
  MainPy.parse_base_url demo_env (py "t-abc") wiki_url demo_world
  = (Raise HTTPError,
     add_events [EHttpWikiNode (py "t-abc") (py "NodeTok")] demo_world).
Proof.
  apply (wiki_failure_stops_parsing demo_env (py "t-abc") wiki_url demo_world);
    [reflexivity | exact I].
Defined.

(** ** The app token of a path *)

Lemma split_on_cons (sep : Z) (s : pystr) :
  exists h t, split_on sep s = h :: t.
Proof.
  induction s as [|c s (h & t & IH)]; simpl; [by eexists _, _|].
  destruct (c =? sep)%Z; [by eexists _, _|]. rw IH. by eexists _, _.
Qed.

Lemma split_on_app (sep : Z) (a b : pystr) :
  split_on sep (a ++ sep :: b) = split_on sep a ++ split_on sep b.
Proof.
  induction a as [|c a IH]; simpl.
  - by rw Z.eqb_refl.
  - destruct (c =? sep)%Z; [by rw IH|].
    rw IH. by destruct (split_on_cons sep a) as (h & t & ->).
Qed.

Lemma split_on_plain (sep : Z) (s : pystr) :
  sep ∉ s -> split_on sep s = [s].
Proof.
  induction s as [|c s IH]; simpl; [done|]. intros Hs.
  apply not_elem_of_cons in Hs as [Hc Hs].
  destruct (Z.eqb_spec c sep) as [->|_]; [done|]. by rw IH.
Qed.

Lemma split_on_parts (sep : Z) (s : pystr) :
  Forall (fun part => sep ∉ part) (split_on sep s).
Proof.
  induction s as [|c s IH]; simpl.
  - repeat constructor. apply not_elem_of_nil.
  - destruct (Z.eqb_spec c sep) as [->|Hne].
    + constructor; [apply not_elem_of_nil | done].
    + destruct (split_on sep s) as [|h t].
      * repeat constructor. apply not_elem_of_cons. split; [done|].
        apply not_elem_of_nil.
      * apply Forall_cons in IH as [Hh Ht]. constructor; [|done].
        apply not_elem_of_cons. by split.
Qed.

Lemma last_app_cons {A} (l1 l2 : list A) (x d : A) :
  List.last (l1 ++ x :: l2) d = List.last (x :: l2) d.
Proof.
  induction l1 as [|y l1 IH]; [done|].
  change ((y :: l1) ++ x :: l2) with (y :: (l1 ++ x :: l2)).
  cbn [List.last]. rw IH. by destruct l1.
Qed.

Lemma last_split_on_app (sep : Z) (a b : pystr) :
  List.last (split_on sep (a ++ sep :: b)) []
  = List.last (split_on sep b) [].
Proof.
  rw split_on_app. destruct (split_on_cons sep b) as (h & t & ->).
  apply last_app_cons.
Qed.

Lemma drop_while_all (p : Z -> bool) (a b : pystr) :
  Forall (fun c => p c = true) a -> drop_while p (a ++ b) = drop_while p b.
Proof.
  induction 1 as [|c a Hc _ IH]; [done|]. simpl. by rw Hc.
Qed.

Lemma drop_while_stops (p : Z -> bool) (s : pystr) :
  match s with c :: _ => p c = false | [] => True end ->
  drop_while p s = s.
Proof. destruct s as [|c s]; [done|]. simpl. by intros ->. Qed.

(** Stripping slashes from a path that ends with the segment [seg] and
    then slashes leaves a string that ends with a slash and [seg], or
    [seg] alone. *)
Lemma strip_char_segment (pre seg trail : pystr) :
  seg <> [] -> slash ∉ seg -> Forall (eq slash) trail ->
  exists a, strip_char slash (pre ++ slash :: seg ++ trail) = a ++ seg /\
            (a = [] \/ exists z, a = z ++ [slash]).
Proof.
  intros Hne Hseg Htrail.
  assert (Hp : forall c, c ∈ seg -> (slash =? c)%Z = false).
  { intros c Hc. apply Z.eqb_neq. by intros <-. }
  assert (Hleft : exists a,
    drop_while (Z.eqb slash) (pre ++ slash :: seg ++ trail) = a ++ seg ++ trail /\
    (a = [] \/ exists z, a = z ++ [slash])).
  { induction pre as [|c pre IH].
    - exists []. split; [|by left]. cbn [app drop_while].
      rw Z.eqb_refl.
      apply drop_while_stops. destruct seg as [|x seg]; [done|].
      apply Hp. by left.
    - cbn [app drop_while]. destruct (slash =? c)%Z; [exact IH|].
      exists ((c :: pre) ++ [slash]). split; [|right; by eexists].
      by rw -!app_assoc. }
  destruct Hleft as (a & Hleft & Ha). exists a. split; [|done].
  unfold strip_char. rw Hleft. rw !rev_app_distr -app_assoc.
  rw drop_while_all.
  { apply Forall_rev. eapply Forall_impl; [exact Htrail|].
    intros c <-. apply Z.eqb_refl. }
  rw drop_while_stops.
  { destruct (rev seg) as [|x r] eqn:E.
    - apply (f_equal (@rev Z)) in E. rw rev_involutive in E. by destruct Hne.
    - apply Hp. apply (f_equal (@rev Z)) in E. rw rev_involutive in E.
      rw E. cbn [rev]. apply elem_of_app. right. by left. }
  by rw rev_app_distr !rev_involutive.
Qed.

(** X24.  When the path of [BASE_URL] ends with a non-empty segment,
    followed by any number of slashes, the app token that the bot reads
    is that segment: trailing slashes are stripped before the path is
    split. *)
Theorem app_token_is_last_segment env pre seg trail :
  url_path (BASE_URL env) = pre ++ slash :: seg ++ trail ->
  seg <> [] -> slash ∉ seg -> Forall (eq slash) trail ->
  bp_app_token (parse_base_url env) = seg.
Proof.
  intros Hpath Hne Hseg Htrail.
  unfold parse_base_url. cbv zeta. cbn [bp_app_token]. rw Hpath.
  destruct (strip_char_segment pre seg trail Hne Hseg Htrail)
    as (a & -> & [-> | (z & ->)]).
  - by rw split_on_plain.
  - rw -app_assoc. cbn [app]. rw split_on_app.
    rw (split_on_plain _ seg) //.
    destruct (split_on_cons slash z) as (h & t & ->).
    cbn [app]. by rw (last_app_cons (h :: t) [] seg []).
Qed.

Lemma app_token_is_last_segment_witness :
  bp_app_token (parse_base_url (with_path demo_env (url_path slash_url)))
  = py "PzITbIyJfaB03BsqVtIcrjtznFf".
Proof.
  apply (app_token_is_last_segment (with_path demo_env (url_path slash_url))
           (py "/base") (py "PzITbIyJfaB03BsqVtIcrjtznFf") (py "/")).
  - reflexivity.
  - discriminate.
  - solve_not_elem.
  - by repeat constructor.
Defined.

(** X25.  Whatever [BASE_URL] is, the app token that the bot reads from
    it contains no slash, so it stays one path segment of the requests
    built from it. *)
Theorem app_token_has_no_slash env :
  slash ∉ bp_app_token (parse_base_url env).
Proof.
  unfold parse_base_url. cbv zeta. cbn [bp_app_token].
  pose proof (split_on_parts slash
                (strip_char slash (url_path (BASE_URL env)))) as Hparts.
  destruct (split_on slash _) as [|h t]; [apply not_elem_of_nil|].
  destruct (exists_last (l := h :: t)) as (l' & x & E); [done|].
  rw E in Hparts |- *. rw (last_app_cons l' [] x []). cbn [List.last].
  apply Forall_app in Hparts as [_ Hx]. by apply Forall_cons in Hx as [Hx _].
Qed.

(** X26.  main.py takes what follows the last slash of the path as the
    app token, without stripping: for a path that ends in a slash the
    app token is the empty string (where the bot reads the segment
    before the slash). *)
Theorem main_app_token_follows_last_slash env token url pre seg tid w :
  url_path url = pre ++ slash :: seg ->
  slash ∉ seg ->
  contains (py "/wiki/") (url_path url) = false ->
  query_first (url_query url) (py "table") = Some tid ->
  MainPy.parse_base_url env token url w
  = (Ok {| bp_app_token := seg; bp_table_id := Some tid;
           bp_view_id := query_first (url_query url) (py "view") |}, w).
Proof.
  intros Hpath Hseg Hwiki Hq.
  unfold MainPy.parse_base_url. cbv zeta. rw Hq Hwiki Hpath.
  rw last_split_on_app split_on_plain //.
Qed.

Lemma main_app_token_follows_last_slash_witness :
  MainPy.parse_base_url demo_env (py "t-abc") slash_url demo_world
  = (Ok {| bp_app_token := []; bp_table_id := Some (py "tblX");
           bp_view_id := None |}, demo_world).
Proof.
  apply (main_app_token_follows_last_slash demo_env (py "t-abc") slash_url
           (py "/base/PzITbIyJfaB03BsqVtIcrjtznFf") [] (py "tblX") demo_world).
  - reflexivity.
  - apply not_elem_of_nil.
  - reflexivity.
  - reflexivity.
Defined.
